(** * mcp-sqlite-ts: the SQLite tool server (src/server.ts)

    A shallow embedding of the command-dispatch and insight-ledger code of
    [src/server.ts]: the class [SqliteDatabase] (the insight list, the memo
    synthesiser and the query executor) and the six tool handlers registered
    by [startMcpServer], followed by the properties of that code.

    Text is modelled as [string], a sequence of bytes (the UTF-8 encoding of
    the source's strings).  The two functions of the host that depend on the
    Unicode tables, [trim] and [toUpperCase], are parameters of the model
    (class [HostText]); module [Text] holds what they are on ASCII text,
    which the scenarios use.  The winston logger calls write outside the
    modelled state and are left out. *)

From Stdlib Require Import String Ascii List Bool Arith ZArith Lia.
From Stdlib Require Import DecimalString.
Import ListNotations.
Open Scope list_scope.
Open Scope string_scope.

Set Implicit Arguments.

(* ===================================================================== *)
(** ** Text primitives of the host language *)
(* ===================================================================== *)

Module Text.

(** The line feed written ["\n"] in the source. *)
Definition LF : string := String (ascii_of_nat 10) EmptyString.

(** The double quote character, as a one-character string. *)
Definition DQUOTE : string := String (ascii_of_nat 34) EmptyString.

(** The ASCII characters that [String.prototype.trim] removes: TAB, LF, VT,
    FF, CR and SPACE. *)
Definition isWhiteSpace (c : ascii) : bool :=
  let n := nat_of_ascii c in
  ((9 <=? n)%nat && (n <=? 13)%nat) || (n =? 32)%nat.

Fixpoint trimStart (s : string) : string :=
  match s with
  | EmptyString => EmptyString
  | String c rest => if isWhiteSpace c then trimStart rest else s
  end.

(** Drops the trailing white space: a character is kept when it is not
    white space or when something is kept after it. *)
Fixpoint trimEnd (s : string) : string :=
  match s with
  | EmptyString => EmptyString
  | String c rest =>
      match trimEnd rest with
      | EmptyString => if isWhiteSpace c then EmptyString else String c EmptyString
      | kept => String c kept
      end
  end.

(** [s.trim()] on ASCII text. *)
Definition trim (s : string) : string := trimEnd (trimStart s).

Definition upperChar (c : ascii) : ascii :=
  let n := nat_of_ascii c in
  if (97 <=? n)%nat && (n <=? 122)%nat then ascii_of_nat (n - 32) else c.

(** [s.toUpperCase()] on ASCII text. *)
Fixpoint toUpperCase (s : string) : string :=
  match s with
  | EmptyString => EmptyString
  | String c rest => String (upperChar c) (toUpperCase rest)
  end.

(** [s.startsWith(search)] *)
Fixpoint startsWith (s search : string) {struct search} : bool :=
  match search with
  | EmptyString => true
  | String p search' =>
      match s with
      | EmptyString => false
      | String c s' => Ascii.eqb c p && startsWith s' search'
      end
  end.

(** [parts.join(sep)] *)
Fixpoint join (sep : string) (parts : list string) : string :=
  match parts with
  | [] => EmptyString
  | [p] => p
  | p :: rest => p ++ sep ++ join sep rest
  end.

(** The decimal rendering of a number inside a template literal. *)
Definition ofNat (n : nat) : string := NilZero.string_of_uint (Nat.to_uint n).

End Text.
Import Text.

(** [s.trim()] and [s.toUpperCase()] of the host, on every text: they
    follow the Unicode tables of the engine, which the source does not
    hold, and are taken as given. *)
Class HostText : Type := {
  trim : string -> string;
  toUpperCase : string -> string
}.

(** The two functions on ASCII text. *)
Definition asciiText : HostText :=
  {| trim := Text.trim; toUpperCase := Text.toUpperCase |}.

(* ===================================================================== *)
(** ** class SqliteDatabase: the insight list and the memo *)
(* ===================================================================== *)

Record SqliteDatabase : Type := mkSqliteDatabase {
  dbPath : string;
  insights : list string
}.

(** [new SqliteDatabase(dbPath)]: [insights] starts empty. *)
Definition newSqliteDatabase (path : string) : SqliteDatabase :=
  {| dbPath := path; insights := [] |}.

Definition memoTitle : string :=
  "📊 Business Intelligence Memo 📊" ++ LF ++ LF.

Definition memoHeading : string :=
  "Key Insights Discovered:" ++ LF ++ LF.

Definition memoSummary (count : nat) : string :=
  LF ++ "Summary:" ++ LF ++
  "Analysis has revealed " ++ ofNat count ++
  " key business insights that suggest opportunities for strategic optimization and growth.".

(** [_synthesizeMemo()] *)
Definition _synthesizeMemo (this : SqliteDatabase) : string :=
  if (List.length (insights this) =? 0)%nat then
    "No business insights have been discovered yet."
  else
    let bullets := join LF (map (fun insight => "- " ++ insight) (insights this)) in
    let memo := memoTitle in
    let memo := memo ++ memoHeading in
    let memo := memo ++ bullets in
    let memo :=
      if (1 <? List.length (insights this))%nat
      then (memo ++ memoSummary (List.length (insights this)))
      else memo in
    memo.

(* ===================================================================== *)
(** ** The store driver (packages sqlite and sqlite3) *)
(* ===================================================================== *)

(** A value of a result row: the store's dynamic types that JSON carries as
    they are. *)
Inductive SqlValue : Type :=
| SqlNull
| SqlInteger (n : Z)
| SqlText (s : string).

(** A row is an object from column name to value, in column order. *)
Definition Row : Type := list (string * SqlValue).
Definition Rows : Type := list Row.

(** The named parameters bound by [stmt.all(params)]. *)
Definition Params : Type := list (string * SqlValue).

(** A thrown [Error], by its [message]. *)
Definition Fault : Type := string.

(** What the executor needs of the driver.  [Store] is the content of the
    database file.  [sqlite_open] answers [Some fault] when the connection
    cannot be opened, [sqlite_prepare] answers [Some fault] when the store
    rejects the statement text, [sqlite_all] steps the prepared statement:
    it gives the store afterwards and the rows or the fault.  [finalize] is
    taken to succeed; [close] follows [sqlite3_close]: it is refused while
    a statement of the connection is not finalized, and succeeds otherwise. *)
Class Driver : Type := {
  Store : Type;
  sqlite_open : Store -> option Fault;
  sqlite_prepare : Store -> string -> option Fault;
  sqlite_all : Store -> string -> Params -> Store * (Fault + Rows)
}.

(** A connection, by the number it got when it was opened. *)
Definition Connection : Type := nat.

(** A prepared statement: the connection it was prepared on and its text. *)
Record Statement : Type := mkStatement {
  connection : Connection;
  sql : string
}.

(** The calls made on the driver, in the order they are made, each with the
    connection it is made on. *)
Inductive DriverCall : Type :=
| CallOpen
| CallPrepare (conn : Connection) (query : string)
| CallAll (conn : Connection) (query : string) (params : Params)
| CallFinalize (conn : Connection)
| CallClose (conn : Connection).

(** An open connection, with the number of its prepared statements that
    are not finalized yet. *)
Record OpenConnection : Type := mkOpenConnection {
  handle : Connection;
  unfinalized : nat
}.

(** The open connections without [conn]. *)
Fixpoint release (conn : Connection) (open : list OpenConnection)
  : list OpenConnection :=
  match open with
  | [] => []
  | c :: rest => if (handle c =? conn)%nat then rest else c :: release conn rest
  end.

(** The number of statements of [conn] that are not finalized. *)
Fixpoint statementsOn (conn : Connection) (open : list OpenConnection) : nat :=
  match open with
  | [] => 0
  | c :: rest =>
      if (handle c =? conn)%nat then unfinalized c else statementsOn conn rest
  end.

(** The open connections, with the number of statements of [conn] changed
    by [change]. *)
Fixpoint withStatements (change : nat -> nat) (conn : Connection)
  (open : list OpenConnection) : list OpenConnection :=
  match open with
  | [] => []
  | c :: rest =>
      if (handle c =? conn)%nat
      then {| handle := handle c; unfinalized := change (unfinalized c) |} :: rest
      else c :: withStatements change conn rest
  end.

(** The fault of [close] on a connection with a statement not finalized. *)
Definition closeBusy : Fault :=
  "SQLITE_BUSY: unable to close due to unfinalized statements or unfinished backups".

(** [server.server.notification({method, params: {resource}})] *)
Record Notification : Type := mkNotification {
  method : string;
  resource : string
}.

Record TextContent : Type := mkTextContent {
  type : string;
  text : string
}.

(** The envelope every tool handler returns. *)
Record CallToolResult : Type := mkCallToolResult {
  content : list TextContent;
  isError : bool
}.

(** How an awaited call settles. *)
Inductive Outcome (A : Type) : Type :=
| Resolved (value : A)
| Rejected (error : Fault).
Arguments Resolved {A} value.
Arguments Rejected {A} error.

(* ===================================================================== *)
(** ** JSON.stringify on result sets *)
(* ===================================================================== *)

Module Json.

Definition hexDigit (n : nat) : ascii :=
  if (n <? 10)%nat then ascii_of_nat (48 + n) else ascii_of_nat (87 + n).

(** One character inside a JSON string: the quote and the reverse solidus
    are escaped, the control characters take their short form or the
    four-digit form. *)
Definition escapeChar (c : ascii) : string :=
  let n := nat_of_ascii c in
  if (n =? 34)%nat then String (ascii_of_nat 92) DQUOTE
  else if (n =? 92)%nat then String (ascii_of_nat 92) (String (ascii_of_nat 92) EmptyString)
  else if (n =? 8)%nat then String (ascii_of_nat 92) "b"
  else if (n =? 9)%nat then String (ascii_of_nat 92) "t"
  else if (n =? 10)%nat then String (ascii_of_nat 92) "n"
  else if (n =? 12)%nat then String (ascii_of_nat 92) "f"
  else if (n =? 13)%nat then String (ascii_of_nat 92) "r"
  else if (n <? 32)%nat then
    String (ascii_of_nat 92)
      ("u00" ++ String (hexDigit (n / 16)) (String (hexDigit (n mod 16)) EmptyString))
  else String c EmptyString.

Fixpoint escape (s : string) : string :=
  match s with
  | EmptyString => EmptyString
  | String c rest => escapeChar c ++ escape rest
  end.

Definition quote (s : string) : string := DQUOTE ++ escape s ++ DQUOTE.

Definition ofZ (n : Z) : string := NilZero.string_of_int (Z.to_int n).

Definition value (v : SqlValue) : string :=
  match v with
  | SqlNull => "null"
  | SqlInteger n => ofZ n
  | SqlText s => quote s
  end.

Definition member (kv : string * SqlValue) : string :=
  quote (fst kv) ++ ":" ++ value (snd kv).

Definition object (r : Row) : string :=
  "{" ++ join "," (map member r) ++ "}".

(** [JSON.stringify(rows)] *)
Definition stringify (rows : Rows) : string :=
  "[" ++ join "," (map object rows) ++ "]".

End Json.

Section Server.

Context {driver : Driver} {host : HostText}.

(** Everything a handler can read or change: the [db] object, the database
    file, the connections currently open, the number the next connection
    gets, the driver calls made so far, the statements handed to
    [_executeQuery] so far and the notifications sent so far. *)
Record World : Type := mkWorld {
  db : SqliteDatabase;
  store : Store;
  openConnections : list OpenConnection;
  nextConnection : Connection;
  driverCalls : list DriverCall;
  executed : list string;
  notifications : list Notification
}.

(** [startMcpServer(dbPath)] over a given database file, when the first
    tool call arrives: the open and close of the constructor's
    [_initDatabase] are not in the driver calls. *)
Definition startWorld (path : string) (file : Store) : World :=
  {| db := newSqliteDatabase path; store := file; openConnections := [];
     nextConnection := 0; driverCalls := []; executed := [];
     notifications := [] |}.

(** An [async] computation: it runs on the world and settles. *)
Definition Async (A : Type) : Type := World -> World * Outcome A.

Definition ret {A} (a : A) : Async A := fun w => (w, Resolved a).

Definition throw {A} (error : Fault) : Async A := fun w => (w, Rejected error).

Definition bind {A B} (m : Async A) (k : A -> Async B) : Async B :=
  fun w =>
    match m w with
    | (w', Resolved a) => k a w'
    | (w', Rejected error) => (w', Rejected error)
    end.

(** [try { body } catch (error) { handler }] *)
Definition tryCatch {A} (body : Async A) (handler : Fault -> Async A) : Async A :=
  fun w =>
    match body w with
    | (w', Resolved a) => (w', Resolved a)
    | (w', Rejected error) => handler error w'
    end.

(** [try { body } finally { cleanup }]: the cleanup runs on both paths and
    the body's outcome stands unless the cleanup itself throws. *)
Definition tryFinally {A} (body : Async A) (cleanup : Async unit) : Async A :=
  fun w =>
    match body w with
    | (w', outcome) =>
        match cleanup w' with
        | (w'', Resolved _) => (w'', outcome)
        | (w'', Rejected error) => (w'', Rejected error)
        end
    end.

Notation "x <- m ;; k" := (bind m (fun x => k))
  (at level 61, m at next level, right associativity).
Notation "m ;; k" := (bind m (fun _ => k))
  (at level 61, right associativity).

Definition called (c : DriverCall) (w : World) : World :=
  {| db := db w; store := store w; openConnections := openConnections w;
     nextConnection := nextConnection w;
     driverCalls := (driverCalls w ++ [c])%list; executed := executed w;
     notifications := notifications w |}.

(** [await open({filename: this.dbPath, driver: sqlite3.Database})]: a new
    connection, open from now on. *)
Definition open : Async Connection :=
  fun w =>
    let w := called CallOpen w in
    match sqlite_open (store w) with
    | Some fault => (w, Rejected fault)
    | None =>
        let conn := nextConnection w in
        ({| db := db w; store := store w;
            openConnections :=
              {| handle := conn; unfinalized := 0 |} :: openConnections w;
            nextConnection := S conn;
            driverCalls := driverCalls w; executed := executed w;
            notifications := notifications w |}, Resolved conn)
    end.

(** [await db.prepare(query)]: on success the connection has one more
    statement that is not finalized. *)
Definition prepare (conn : Connection) (query : string) : Async Statement :=
  fun w =>
    let w := called (CallPrepare conn query) w in
    match sqlite_prepare (store w) query with
    | Some fault => (w, Rejected fault)
    | None =>
        ({| db := db w; store := store w;
            openConnections := withStatements S conn (openConnections w);
            nextConnection := nextConnection w;
            driverCalls := driverCalls w; executed := executed w;
            notifications := notifications w |},
         Resolved {| connection := conn; sql := query |})
    end.

(** [await stmt.all(params)] *)
Definition all (stmt : Statement) (params : Params) : Async Rows :=
  fun w =>
    let w := called (CallAll (connection stmt) (sql stmt) params) w in
    let (file, answer) := sqlite_all (store w) (sql stmt) params in
    let w' := {| db := db w; store := file;
                 openConnections := openConnections w;
                 nextConnection := nextConnection w;
                 driverCalls := driverCalls w; executed := executed w;
                 notifications := notifications w |} in
    match answer with
    | inl fault => (w', Rejected fault)
    | inr rows => (w', Resolved rows)
    end.

(** [await stmt.finalize()] *)
Definition finalize (stmt : Statement) : Async unit :=
  fun w =>
    let w := called (CallFinalize (connection stmt)) w in
    ({| db := db w; store := store w;
        openConnections :=
          withStatements pred (connection stmt) (openConnections w);
        nextConnection := nextConnection w;
        driverCalls := driverCalls w; executed := executed w;
        notifications := notifications w |}, Resolved tt).

(** [await db.close()]: refused, the connection staying open, while one of
    its statements is not finalized; otherwise the connection is open no
    more. *)
Definition close (conn : Connection) : Async unit :=
  fun w =>
    let w := called (CallClose conn) w in
    if (0 <? statementsOn conn (openConnections w))%nat then
      (w, Rejected closeBusy)
    else
      ({| db := db w; store := store w;
          openConnections := release conn (openConnections w);
          nextConnection := nextConnection w;
          driverCalls := driverCalls w; executed := executed w;
          notifications := notifications w |}, Resolved tt).

(** Entry of [_executeQuery]: the statement it was handed is recorded. *)
Definition entered (query : string) : Async unit :=
  fun w =>
    ({| db := db w; store := store w; openConnections := openConnections w;
        nextConnection := nextConnection w;
        driverCalls := driverCalls w;
        executed := (executed w ++ [query])%list;
        notifications := notifications w |}, Resolved tt).

(** [_executeQuery(query, params = {})] *)
Definition _executeQuery (query : string) (params : Params) : Async Rows :=
  entered query ;;
  conn <- open ;;
  tryFinally
    (tryCatch
       (stmt <- prepare conn query ;;
        result <- all stmt params ;;
        finalize stmt ;;
        ret result)
       (fun error => throw error))
    (close conn).

(* =================================================================== *)
(** *** The memo resource and the tool handlers of [startMcpServer] *)
(* =================================================================== *)

Record Resource : Type := mkResource {
  resourceName : string;
  resourceUri : string;
  description : string;
  mimeType : string
}.

(** [server.resource("Business Insights Memo", "memo://insights", ...)] *)
Definition memoResource : Resource :=
  {| resourceName := "Business Insights Memo";
     resourceUri := "memo://insights";
     description := "A living document of discovered business insights";
     mimeType := "text/plain" |}.

Record ResourceContents : Type := mkResourceContents {
  uri : string;
  contentsText : string
}.

(** The read callback of the memo resource. *)
Definition readMemo (href : string) : Async (list ResourceContents) :=
  fun w => (w, Resolved [ {| uri := href; contentsText := _synthesizeMemo (db w) |} ]).

Definition textContent (s : string) : TextContent :=
  {| type := "text"; text := s |}.

(** [read_query] *)
Definition read_query (query : string) : Async CallToolResult :=
  if negb (startsWith (toUpperCase (trim query)) "SELECT") then
    ret {| content := [textContent "Only SELECT queries are allowed for read_query"];
           isError := true |}
  else
    readQueryResults <- _executeQuery query [] ;;
    ret {| content := [textContent (Json.stringify readQueryResults)];
           isError := false |}.

(** [write_query] *)
Definition write_query (query : string) : Async CallToolResult :=
  if startsWith (toUpperCase (trim query)) "SELECT" then
    ret {| content := [textContent "SELECT queries are not allowed for write_query"];
           isError := true |}
  else
    writeQueryResults <- _executeQuery query [] ;;
    ret {| content := [textContent (Json.stringify writeQueryResults)];
           isError := false |}.

(** [create_table] *)
Definition create_table (query : string) : Async CallToolResult :=
  if negb (startsWith (toUpperCase (trim query)) "CREATE TABLE") then
    ret {| content := [textContent "Only CREATE TABLE statements are allowed"];
           isError := true |}
  else
    _executeQuery query [] ;;
    tryCatch
      (_executeQuery query [] ;;
       ret {| content := [textContent ("Table created successfully: " ++ query)];
              isError := false |})
      (fun error =>
       ret {| content := [textContent ("Error creating table: " ++ error)];
              isError := true |}).

(** [list_tables] *)
Definition list_tables : Async CallToolResult :=
  tryCatch
    (listTablesResults <-
       _executeQuery "SELECT name FROM sqlite_master WHERE type='table'" [] ;;
     ret {| content := [textContent (Json.stringify listTablesResults)];
            isError := false |})
    (fun error =>
     ret {| content := [textContent ("Error listing tables: " ++ error)];
            isError := true |}).

(** [describe_table] *)
Definition describe_table (table_name : string) : Async CallToolResult :=
  tryCatch
    (describeTableResults <-
       _executeQuery ("PRAGMA table_info(" ++ table_name ++ ")") [] ;;
     ret {| content := [textContent (Json.stringify describeTableResults)];
            isError := false |})
    (fun error =>
     ret {| content := [textContent ("Error describing table: " ++ error)];
            isError := true |}).

(** [db.insights.push(insight)] *)
Definition push (insight : string) : Async unit :=
  fun w =>
    ({| db := {| dbPath := dbPath (db w);
                 insights := (insights (db w) ++ [insight])%list |};
        store := store w; openConnections := openConnections w;
        nextConnection := nextConnection w;
        driverCalls := driverCalls w; executed := executed w;
        notifications := notifications w |}, Resolved tt).

(** [db._synthesizeMemo()] called on the [db] object of the server. *)
Definition synthesizeMemo : Async string :=
  fun w => (w, Resolved (_synthesizeMemo (db w))).

(** [await server.server.notification(n)]: the transport takes it. *)
Definition notification (n : Notification) : Async unit :=
  fun w =>
    ({| db := db w; store := store w; openConnections := openConnections w;
        nextConnection := nextConnection w;
        driverCalls := driverCalls w; executed := executed w;
        notifications := (notifications w ++ [n])%list |}, Resolved tt).

(** [append_insight] *)
Definition append_insight (insight : string) : Async CallToolResult :=
  push insight ;;
  synthesizeMemo ;;
  notification {| method := "notifications/resources/updated";
                  resource := "memo://insight" |} ;;
  ret {| content := [textContent "Insight added to memo"]; isError := false |}.

(** A call of one of the six registered tools, with its argument. *)
Inductive ToolCall : Type :=
| ReadQuery (query : string)
| WriteQuery (query : string)
| CreateTable (query : string)
| ListTables
| DescribeTable (table_name : string)
| AppendInsight (insight : string).

Definition callTool (c : ToolCall) : Async CallToolResult :=
  match c with
  | ReadQuery query => read_query query
  | WriteQuery query => write_query query
  | CreateTable query => create_table query
  | ListTables => list_tables
  | DescribeTable table_name => describe_table table_name
  | AppendInsight insight => append_insight insight
  end.

(** The handler of [tools/call] in [McpServer] (package
    @modelcontextprotocol/sdk), through which the caller reaches every
    callback: a fault of the callback becomes a result with [isError] set
    and the message of the fault as its text. *)
Definition toolsCall (c : ToolCall) : Async CallToolResult :=
  tryCatch (callTool c)
    (fun error => ret {| content := [textContent error]; isError := true |}).

(** The server handles the calls one after the other; a call that settles
    rejected leaves the world as it was at the rejection. *)
Fixpoint serve (calls : list ToolCall) (w : World) : World :=
  match calls with
  | [] => w
  | c :: rest => serve rest (fst (callTool c w))
  end.

(** The insights the calls of a sequence append, in order. *)
Fixpoint appended (calls : list ToolCall) : list string :=
  match calls with
  | [] => []
  | AppendInsight insight :: rest => insight :: appended rest
  | _ :: rest => appended rest
  end.

End Server.

(* ===================================================================== *)
(** ** A small store for the end-to-end scenarios *)
(* ===================================================================== *)

(** An instance of [Driver] that answers as SQLite does on the statements of
    the scenarios: [CREATE TABLE name (column type, ...)], with
    [IF NOT EXISTS] or without, the catalogue query of [list_tables],
    [PRAGMA table_info(name)], [SELECT * FROM name] and
    [SELECT abs(-9223372036854775808)], over names that are not SQL
    keywords.  Tables hold no rows.  Any other text is refused with a fault
    that says so; no result below rests on that answer.  The scenarios are
    in ASCII text, on which the functions of the host are those of module
    [Text]. *)
Module MiniSqlite.

Inductive Token : Type :=
| TWord (s : string)
| TQuoted (s : string)
| TSym (c : ascii).

Definition isWordChar (c : ascii) : bool :=
  let n := nat_of_ascii c in
  ((48 <=? n)%nat && (n <=? 57)%nat) || ((65 <=? n)%nat && (n <=? 90)%nat)
  || ((97 <=? n)%nat && (n <=? 122)%nat) || (n =? 95)%nat.

Definition isQuote (c : ascii) : bool := (nat_of_ascii c =? 39)%nat.

(** White space between the tokens of SQL: SPACE, TAB, LF, FF and CR. *)
Definition isSqlSpace (c : ascii) : bool :=
  let n := nat_of_ascii c in
  (n =? 32)%nat || (n =? 9)%nat || (n =? 10)%nat || (n =? 12)%nat || (n =? 13)%nat.

Inductive Mode : Type :=
| Idle
| InWord (acc : string)
| InQuoted (acc : string).

Definition snoc (s : string) (c : ascii) : string := s ++ String c EmptyString.

(** The tokens of a statement; [None] when a quoted literal is left open. *)
Fixpoint scan (mode : Mode) (s : string) : option (list Token) :=
  let emit t r := option_map (cons t) r in
  match s with
  | EmptyString =>
      match mode with
      | Idle => Some []
      | InWord acc => Some [TWord acc]
      | InQuoted _ => None
      end
  | String c rest =>
      let fromIdle (_ : unit) :=
        if isSqlSpace c then scan Idle rest
        else if isQuote c then scan (InQuoted EmptyString) rest
        else if isWordChar c then scan (InWord (String c EmptyString)) rest
        else emit (TSym c) (scan Idle rest) in
      match mode with
      | Idle => fromIdle tt
      | InWord acc =>
          if isWordChar c then scan (InWord (snoc acc c)) rest
          else emit (TWord acc) (fromIdle tt)
      | InQuoted acc =>
          if isQuote c then emit (TQuoted acc) (scan Idle rest)
          else scan (InQuoted (snoc acc c)) rest
      end
  end.

Inductive Parsed : Type :=
| StCreateTable (ifNotExists : bool) (name : string)
    (columns : list (string * string))
| StListTables
| StTableInfo (name : string)
| StSelectAll (name : string)
| StAbsOfLeastInteger.

(** Keywords and names compare without regard to the case of ASCII
    letters. *)
Definition sameName (a b : string) : bool :=
  String.eqb (Text.toUpperCase a) (Text.toUpperCase b).

Definition isSym (c : ascii) (glyph : string) : bool :=
  String.eqb (String c EmptyString) glyph.

(** [column type , column type , ... )] up to the end of the statement. *)
Fixpoint parseColumns (ts : list Token) : option (list (string * string)) :=
  match ts with
  | TWord column :: TWord ty :: TSym c :: rest =>
      if isSym c ")" then
        match rest with
        | [] => Some [(column, ty)]
        | _ => None
        end
      else if isSym c "," then
        option_map (cons (column, ty)) (parseColumns rest)
      else None
  | _ => None
  end.

Definition parseTokens (ts : list Token) : option Parsed :=
  match ts with
  | TWord k1 :: TWord k2 :: TWord name :: TSym c :: rest =>
      if sameName k1 "CREATE" && sameName k2 "TABLE" && isSym c "(" then
        option_map (StCreateTable false name) (parseColumns rest)
      else None
  | [TWord k1; TWord c1; TWord k2; TWord t; TWord k3; TWord c2; TSym e; TQuoted v] =>
      if sameName k1 "SELECT" && sameName c1 "name" && sameName k2 "FROM"
         && sameName t "sqlite_master" && sameName k3 "WHERE"
         && sameName c2 "type" && isSym e "=" && String.eqb v "table"
      then Some StListTables else None
  | TWord k1 :: TWord k2 :: TWord k3 :: TWord k4 :: TWord k5 :: TWord name
      :: TSym c :: rest =>
      if sameName k1 "CREATE" && sameName k2 "TABLE" && sameName k3 "IF"
         && sameName k4 "NOT" && sameName k5 "EXISTS" && isSym c "(" then
        option_map (StCreateTable true name) (parseColumns rest)
      else None
  | [TWord k1; TWord f; TSym l; TWord name; TSym r] =>
      if sameName k1 "PRAGMA" && sameName f "table_info"
         && isSym l "(" && isSym r ")"
      then Some (StTableInfo name) else None
  | [TWord k1; TSym star; TWord k2; TWord name] =>
      if sameName k1 "SELECT" && isSym star "*" && sameName k2 "FROM"
      then Some (StSelectAll name) else None
  | [TWord k1; TWord f; TSym l; TSym minus; TWord digits; TSym r] =>
      if sameName k1 "SELECT" && sameName f "abs" && isSym l "("
         && isSym minus "-" && String.eqb digits "9223372036854775808"
         && isSym r ")"
      then Some StAbsOfLeastInteger else None
  | _ => None
  end.

Definition parse (sql : string) : option Parsed :=
  match scan Idle sql with
  | Some ts => parseTokens ts
  | None => None
  end.

Record Table : Type := mkTable {
  tableName : string;
  tableColumns : list (string * string)
}.

(** The database file: whether it can be opened, and its tables in the
    order they were created. *)
Record File : Type := mkFile {
  openable : bool;
  tables : list Table
}.

(** A database file just created: it opens and has no table. *)
Definition fresh : File := {| openable := true; tables := [] |}.

Definition findTable (name : string) (f : File) : option Table :=
  find (fun t => sameName (tableName t) name) (tables f).

(** The first name that was seen before, as it is spelled there. *)
Fixpoint duplicate (seen names : list string) : option string :=
  match names with
  | [] => None
  | n :: rest =>
      if existsb (sameName n) seen then Some n else duplicate (n :: seen) rest
  end.

Definition refuse (parts : list string) : option Fault :=
  Some (join "" ("SQLITE_ERROR: " :: parts)).

Definition mini_open (f : File) : option Fault :=
  if openable f then None
  else Some "SQLITE_CANTOPEN: unable to open database file".

Definition mini_prepare (f : File) (sql : string) : option Fault :=
  match parse sql with
  | None => refuse ["statement outside the modelled fragment"]
  | Some (StCreateTable ifNotExists name columns) =>
      if startsWith (Text.toUpperCase name) "SQLITE_" then
        refuse ["object name reserved for internal use: "; name]
      else match findTable name f with
      | Some _ =>
          if ifNotExists then None
          else refuse ["table "; name; " already exists"]
      | None =>
          match duplicate [] (map fst columns) with
          | Some c => refuse ["duplicate column name: "; c]
          | None => None
          end
      end
  | Some StListTables => None
  | Some (StTableInfo _) => None
  | Some (StSelectAll name) =>
      match findTable name f with
      | Some _ => None
      | None => refuse ["no such table: "; name]
      end
  | Some StAbsOfLeastInteger => None
  end.

Fixpoint tableInfo (cid : nat) (columns : list (string * string)) : Rows :=
  match columns with
  | [] => []
  | (name, ty) :: rest =>
      [ ("cid", SqlInteger (Z.of_nat cid)); ("name", SqlText name);
        ("type", SqlText ty); ("notnull", SqlInteger 0);
        ("dflt_value", SqlNull); ("pk", SqlInteger 0) ]
      :: tableInfo (S cid) rest
  end.

Definition mini_all (f : File) (sql : string) (params : Params)
  : File * (Fault + Rows) :=
  match parse sql with
  | Some (StCreateTable _ name columns) =>
      match findTable name f with
      | Some _ => (f, inr [])
      | None =>
          ({| openable := openable f;
              tables := (tables f ++ [ {| tableName := name; tableColumns := columns |} ])%list |},
           inr [])
      end
  | Some StListTables =>
      (f, inr (map (fun t => [("name", SqlText (tableName t))]) (tables f)))
  | Some (StTableInfo name) =>
      (f, inr match findTable name f with
              | Some t => tableInfo 0 (tableColumns t)
              | None => []
              end)
  | Some (StSelectAll _) => (f, inr [])
  | Some StAbsOfLeastInteger => (f, inl "SQLITE_ERROR: integer overflow")
  | None => (f, inl "SQLITE_ERROR: statement outside the modelled fragment")
  end.

#[export] Instance driver : Driver :=
  {| Store := File;
     sqlite_open := mini_open;
     sqlite_prepare := mini_prepare;
     sqlite_all := mini_all |}.

#[export] Existing Instance asciiText.

(** The server started on a fresh database file. *)
Definition freshWorld : World := startWorld "/data/database.db" fresh.

(** The statement of the first end-to-end scenario. *)
Definition createT : string := "CREATE TABLE t (id INTEGER, name TEXT)".

(** The world after [create_table] was called once with [createT]. *)
Definition afterCreateT : World := fst (create_table createT freshWorld).

(** A server whose database file cannot be opened. *)
Definition lockedWorld : World :=
  startWorld "/data/database.db" {| openable := false; tables := [] |}.

(** A statement that is prepared without fault and faults when it is
    stepped: [abs] of the least integer overflows. *)
Definition absOfLeast : string := "SELECT abs(-9223372036854775808)".

End MiniSqlite.

(* ===================================================================== *)
(** ** Vocabulary of the statements below *)
(* ===================================================================== *)

(** The envelope of a refused call: one text item, [isError] set. *)
Definition refusal (message : string) : CallToolResult :=
  {| content := [textContent message]; isError := true |}.

(** The envelope of a call that went through: one text item. *)
Definition success (message : string) : CallToolResult :=
  {| content := [textContent message]; isError := false |}.

(** The leading text the guards of the handlers look at. *)
Definition leading {host : HostText} (query : string) : string :=
  toUpperCase (trim query).

Fixpoint allWhiteSpace (s : string) : bool :=
  match s with
  | EmptyString => true
  | String c rest => isWhiteSpace c && allWhiteSpace rest
  end.

Definition isLineFeed (c : ascii) : bool := (nat_of_ascii c =? 10)%nat.

Fixpoint singleLine (s : string) : bool :=
  match s with
  | EmptyString => true
  | String c rest => negb (isLineFeed c) && singleLine rest
  end.

(** The lines of a text: the pieces between its line feeds. *)
Fixpoint lines (s : string) : list string :=
  match s with
  | EmptyString => [EmptyString]
  | String c rest =>
      if isLineFeed c then EmptyString :: lines rest
      else match lines rest with
           | [] => [String c EmptyString]
           | l :: ls => String c l :: ls
           end
  end.

(** The first and the last character of a text, when it has some. *)
Definition firstChar (s : string) : option ascii :=
  match s with
  | EmptyString => None
  | String c _ => Some c
  end.

Fixpoint lastChar (s : string) : option ascii :=
  match s with
  | EmptyString => None
  | String c EmptyString => Some c
  | String _ rest => lastChar rest
  end.

(** A character that is there and is not white space. *)
Definition solid (o : option ascii) : bool :=
  match o with
  | Some c => negb (isWhiteSpace c)
  | None => false
  end.

(** The world after one call of the executor: the file it left, the
    connection it left open, if any, the number the next connection gets,
    the driver calls it made and the statement it was handed. *)
Definition withExecution {driver : Driver} (w : World) (file : Store)
  (left : list OpenConnection) (next : Connection)
  (calls : list DriverCall) (query : string) : World :=
  {| db := db w; store := file;
     openConnections := (left ++ openConnections w)%list;
     nextConnection := next;
     driverCalls := (driverCalls w ++ calls)%list;
     executed := (executed w ++ [query])%list;
     notifications := notifications w |}.

(** Settles the first call of the executor in the goal, with what [fact]
    says of it kept as a hypothesis. *)
Ltac settle_executor fact :=
  match goal with
  | |- context [_executeQuery ?q ?p ?w] =>
      let H := fresh "Hcall" in
      pose proof (fact q p w) as H;
      destruct (_executeQuery q p w) as [? [?|?]];
      cbn [fst snd] in *
  end.

(** The statement reaches the executor: it is the next one recorded. *)
Definition handedOver {driver : Driver}
  (handler : string -> Async CallToolResult) (query : string) (w : World) : Prop :=
  exists more,
    executed (fst (handler query w)) = (executed w ++ query :: more)%list.

(** The call is answered with a refusal and the world is left as it was. *)
Definition refusedBy {driver : Driver}
  (handler : string -> Async CallToolResult) (message : string)
  (query : string) (w : World) : Prop :=
  handler query w = (w, Resolved (refusal message)).

(* ===================================================================== *)
(** ** Facts on text *)
(* ===================================================================== *)

Unset Implicit Arguments.

(* ===================================================================== *)
(** ** The prompt [mcp-demo] *)
(* ===================================================================== *)

Module Prompt.

(** The rest of [s] after [pattern], when [s] starts with it. *)
Fixpoint dropPrefix (s pattern : string) {struct pattern} : option string :=
  match pattern with
  | EmptyString => Some s
  | String p pattern' =>
      match s with
      | EmptyString => None
      | String c s' => if Ascii.eqb c p then dropPrefix s' pattern' else None
      end
  end.

(** The text before and the text after the first occurrence of [pattern]
    in [s]; [None] when there is none. *)
Fixpoint splitFirst (s pattern : string) : option (string * string) :=
  match dropPrefix s pattern with
  | Some after => Some (EmptyString, after)
  | None =>
      match s with
      | EmptyString => None
      | String c rest =>
          match splitFirst rest pattern with
          | Some (before, after) => Some (String c before, after)
          | None => None
          end
      end
  end.

Definition isChar (code : nat) (c : ascii) : bool := (nat_of_ascii c =? code)%nat.

(** The replacement text of [replace] for a string pattern, which captures
    nothing: a dollar sign followed by a dollar sign stands for one dollar
    sign, followed by an ampersand for the matched text, by a grave accent
    for the text before the match, by an apostrophe for the text after it;
    any other dollar sign stands for itself. *)
Fixpoint getSubstitution (matched before after replacement : string) : string :=
  match replacement with
  | EmptyString => EmptyString
  | String c rest =>
      if isChar 36 c then
        match rest with
        | EmptyString => String c EmptyString
        | String d rest' =>
            if isChar 36 d then
              String d (getSubstitution matched before after rest')
            else if isChar 38 d then
              matched ++ getSubstitution matched before after rest'
            else if isChar 96 d then
              before ++ getSubstitution matched before after rest'
            else if isChar 39 d then
              after ++ getSubstitution matched before after rest'
            else String c (getSubstitution matched before after rest)
        end
      else String c (getSubstitution matched before after rest)
  end.

(** [s.replace(pattern, replacement)] with a string pattern: the first
    occurrence only. *)
Definition replace (s pattern replacement : string) : string :=
  match splitFirst s pattern with
  | None => s
  | Some (before, after) =>
      before ++ getSubstitution pattern before after replacement ++ after
  end.

Record PromptMessage : Type := mkPromptMessage {
  role : string;
  messageContent : TextContent
}.

Record GetPromptResult : Type := mkGetPromptResult {
  promptDescription : string;
  messages : list PromptMessage
}.

(** The callback of [server.prompt("mcp-demo", ...)].  The text of the
    constant [PROMPT_TEMPLATE] is a parameter. *)
Definition mcp_demo {host : HostText} (PROMPT_TEMPLATE : string) (topic : string)
  : GetPromptResult :=
  {| promptDescription := "Demo template for " ++ topic;
     messages :=
       [ {| role := "user";
            messageContent :=
              {| type := "text";
                 text := trim (replace PROMPT_TEMPLATE "{topic}" topic) |} |} ] |}.

(** The texts of the messages of a prompt result. *)
Definition promptTexts (result : GetPromptResult) : list string :=
  map (fun m => text (messageContent m)) (messages result).

(** A text with no dollar sign in it. *)
Fixpoint plain (s : string) : bool :=
  match s with
  | EmptyString => true
  | String c rest => negb (isChar 36 c) && plain rest
  end.

(** A text with no opening brace in it. *)
Fixpoint braceless (s : string) : bool :=
  match s with
  | EmptyString => true
  | String c rest => negb (isChar 123 c) && braceless rest
  end.

End Prompt.

(* ===================================================================== *)
(** ** Start of the server, and runs of the executor *)
(* ===================================================================== *)

(** [_initDatabase()]: a connection is opened and closed at once. *)
Definition _initDatabase {driver : Driver} : Async unit :=
  bind open (fun conn => close conn).

(** The worlds reached from a world by calls of the executor alone. *)
Inductive Executions {driver : Driver} : World -> World -> Prop :=
| executions_none (w : World) : Executions w w
| executions_more (w w' : World) (query : string) (params : Params) :
    Executions (fst (_executeQuery query params w)) w' -> Executions w w'.

Definition isOpen (c : DriverCall) : bool :=
  match c with
  | CallOpen => true
  | _ => false
  end.

Definition isClose (c : DriverCall) : bool :=
  match c with
  | CallClose _ => true
  | _ => false
  end.

(** How many of the calls satisfy [p]. *)
Definition count (p : DriverCall -> bool) (calls : list DriverCall) : nat :=
  List.length (filter p calls).

(** The notification [append_insight] sends. *)
Definition memoUpdated : Notification :=
  {| method := "notifications/resources/updated"; resource := "memo://insight" |}.

(** The lines of the memo of a ledger that is not empty. *)
Definition bullet (insight : string) : string := "- " ++ insight.

Definition summaryLines (n : nat) : list string :=
  if (1 <? n)%nat then
    [ "Summary:";
      "Analysis has revealed " ++ ofNat n ++
      " key business insights that suggest opportunities for strategic optimization and growth." ]
  else [].

Definition memoLines (ledger : list string) : list string :=
  ([ "📊 Business Intelligence Memo 📊"; ""; "Key Insights Discovered:"; "" ]
   ++ map bullet ledger ++ summaryLines (List.length ledger))%list.

Section TextFacts.

(** In this section [trim] and [toUpperCase] are the functions of module
    [Text], the host's on ASCII text. *)
#[local] Existing Instance asciiText.
Local Abbreviation trim := Text.trim.
Local Abbreviation toUpperCase := Text.toUpperCase.

Lemma leading_ascii (s : string) : leading s = toUpperCase (trim s).
Proof. reflexivity. Qed.

Lemma append_assoc (a b c : string) : (a ++ b) ++ c = a ++ b ++ c.
Proof. induction a as [|x a IH]; simpl; [reflexivity | now rewrite IH]. Qed.

Lemma toUpperCase_app (a b : string) :
  toUpperCase (a ++ b) = toUpperCase a ++ toUpperCase b.
Proof. induction a as [|x a IH]; simpl; [reflexivity | now rewrite IH]. Qed.

Lemma startsWith_app (k rest : string) : startsWith (k ++ rest) k = true.
Proof.
  induction k as [|x k IH]; simpl; [reflexivity |].
  now rewrite Ascii.eqb_refl, IH.
Qed.

(** Upper-casing never turns a character into white space or back. *)
Lemma isWhiteSpace_upperChar (c : ascii) :
  isWhiteSpace (upperChar c) = isWhiteSpace c.
Proof. destruct c as [[] [] [] [] [] [] [] []]; reflexivity. Qed.

Lemma trimStart_padding (pad s : string) :
  allWhiteSpace pad = true -> trimStart (pad ++ s) = trimStart s.
Proof.
  induction pad as [|c pad IH]; simpl; [reflexivity |].
  intros H. apply andb_prop in H as [Hc Hpad].
  rewrite Hc. now apply IH.
Qed.

Lemma solid_first_toUpperCase (s : string) :
  solid (firstChar (toUpperCase s)) = solid (firstChar s).
Proof.
  destruct s as [|c s]; simpl; [reflexivity |].
  now rewrite isWhiteSpace_upperChar.
Qed.

Lemma solid_last_toUpperCase (s : string) :
  solid (lastChar (toUpperCase s)) = solid (lastChar s).
Proof.
  induction s as [|c s IH]; [reflexivity |].
  destruct s as [|d s]; simpl in *.
  - now rewrite isWhiteSpace_upperChar.
  - exact IH.
Qed.

Lemma trimStart_solid (s rest : string) :
  solid (firstChar s) = true -> trimStart (s ++ rest) = s ++ rest.
Proof.
  destruct s as [|c s]; simpl; [discriminate |].
  intros H. apply negb_true_iff in H. now rewrite H.
Qed.

Lemma trimEnd_solid (s rest : string) :
  solid (lastChar s) = true -> trimEnd (s ++ rest) = s ++ trimEnd rest.
Proof.
  induction s as [|c s IH]; [discriminate |].
  destruct s as [|d s].
  - simpl. intros H. apply negb_true_iff in H. rewrite H.
    now destruct (trimEnd rest).
  - intros H. specialize (IH H).
    change (trimEnd (String c (String d s ++ rest))
            = String c (String d s ++ trimEnd rest)).
    cbn [trimEnd]. rewrite IH. reflexivity.
Qed.

(** The prefix test sees through padding and letter case, and never looks
    past the keyword. *)
Lemma leading_keyword (keyword : string) (pad spelled body : string) :
  solid (firstChar keyword) = true ->
  solid (lastChar keyword) = true ->
  allWhiteSpace pad = true ->
  toUpperCase spelled = keyword ->
  startsWith (leading (pad ++ spelled ++ body)) keyword = true.
Proof.
  intros Hfirst Hlast Hpad Hup. subst keyword.
  rewrite solid_first_toUpperCase in Hfirst.
  rewrite solid_last_toUpperCase in Hlast.
  rewrite leading_ascii. unfold Text.trim.
  rewrite (trimStart_padding _ _ Hpad), (trimStart_solid _ _ Hfirst).
  rewrite (trimEnd_solid _ _ Hlast), toUpperCase_app.
  apply startsWith_app.
Qed.

Lemma lines_singleLine (s : string) : singleLine s = true -> lines s = [s].
Proof.
  induction s as [|c s IH]; simpl; [reflexivity |].
  intros H. apply andb_prop in H as [Hc Hs].
  apply negb_true_iff in Hc. rewrite Hc, (IH Hs). reflexivity.
Qed.

Lemma lines_break (s rest : string) :
  singleLine s = true -> lines (s ++ LF ++ rest) = s :: lines rest.
Proof.
  induction s as [|c s IH]; simpl; [reflexivity |].
  intros H. apply andb_prop in H as [Hc Hs].
  apply negb_true_iff in Hc. rewrite Hc.
  change (String (ascii_of_nat 10) rest) with (LF ++ rest).
  rewrite (IH Hs). reflexivity.
Qed.

End TextFacts.

(* ===================================================================== *)
(** ** The memo *)
(* ===================================================================== *)

Section MemoFacts.

Lemma synthesizeMemo_empty (path : string) :
  _synthesizeMemo (mkSqliteDatabase path []) =
  "No business insights have been discovered yet.".
Proof. reflexivity. Qed.

Lemma synthesizeMemo_one (path a : string) :
  _synthesizeMemo (mkSqliteDatabase path [a]) =
  memoTitle ++ memoHeading ++ "- " ++ a.
Proof.
  unfold _synthesizeMemo.
  cbn [insights List.length Nat.eqb Nat.ltb Nat.leb map join].
  now rewrite append_assoc.
Qed.

Lemma synthesizeMemo_two (path a b : string) :
  _synthesizeMemo (mkSqliteDatabase path [a; b]) =
  memoTitle ++ memoHeading ++ ("- " ++ a) ++ LF ++ ("- " ++ b) ++ LF ++
  "Summary:" ++ LF ++
  "Analysis has revealed 2 key business insights that suggest opportunities for strategic optimization and growth.".
Proof.
  unfold _synthesizeMemo.
  cbn [insights List.length Nat.eqb Nat.ltb Nat.leb map join].
  rewrite !append_assoc. reflexivity.
Qed.

Lemma singleLine_bullet (a : string) :
  singleLine a = true -> singleLine ("- " ++ a) = true.
Proof. intros H. simpl. exact H. Qed.

Lemma lines_blank (rest : string) : lines (LF ++ rest) = "" :: lines rest.
Proof. reflexivity. Qed.

Lemma lines_bullet_break (a rest : string) :
  singleLine a = true ->
  lines ("- " ++ a ++ LF ++ rest) = ("- " ++ a) :: lines rest.
Proof.
  intros Ha. rewrite <- append_assoc.
  apply lines_break, singleLine_bullet, Ha.
Qed.

Lemma lines_memo_one (path a : string) :
  singleLine a = true ->
  lines (_synthesizeMemo (mkSqliteDatabase path [a])) =
  [ "📊 Business Intelligence Memo 📊"; ""; "Key Insights Discovered:"; "";
    "- " ++ a ].
Proof.
  intros Ha. rewrite synthesizeMemo_one.
  unfold memoTitle, memoHeading. rewrite !append_assoc.
  rewrite lines_break by reflexivity.
  rewrite lines_blank.
  rewrite lines_break by reflexivity.
  rewrite lines_blank.
  rewrite lines_singleLine by (apply singleLine_bullet, Ha).
  reflexivity.
Qed.

Lemma lines_memo_two (path a b : string) :
  singleLine a = true -> singleLine b = true ->
  lines (_synthesizeMemo (mkSqliteDatabase path [a; b])) =
  [ "📊 Business Intelligence Memo 📊"; ""; "Key Insights Discovered:"; "";
    "- " ++ a; "- " ++ b; "Summary:";
    "Analysis has revealed 2 key business insights that suggest opportunities for strategic optimization and growth." ].
Proof.
  intros Ha Hb. rewrite synthesizeMemo_two.
  unfold memoTitle, memoHeading. rewrite !append_assoc.
  rewrite lines_break by reflexivity.
  rewrite lines_blank.
  rewrite lines_break by reflexivity.
  rewrite lines_blank.
  rewrite (lines_bullet_break _ _ Ha), (lines_bullet_break _ _ Hb).
  rewrite lines_break by reflexivity.
  reflexivity.
Qed.

(** C6. The memo is a function of the ledger alone: two [db] objects with
    the same insights give the same text.  On the empty ledger it is the
    sentinel text.  On a ledger [[a]] it is the title, the heading and the
    single line [- a], with nothing after it: no summary section.  On a
    ledger [[a; b]] it is the title, the heading, the lines [- a] and
    [- b] in that order, then the summary section, which states the
    count 2.  When the insights hold no line feed, the lines of the memo
    are exactly the ones listed. *)
Theorem synthesizeMemo_of_ledger :
  (forall d1 d2 : SqliteDatabase,
      insights d1 = insights d2 -> _synthesizeMemo d1 = _synthesizeMemo d2) /\
  (forall path,
      _synthesizeMemo (mkSqliteDatabase path []) =
      "No business insights have been discovered yet.") /\
  (forall path a,
      _synthesizeMemo (mkSqliteDatabase path [a]) =
      memoTitle ++ memoHeading ++ "- " ++ a) /\
  (forall path a,
      singleLine a = true ->
      lines (_synthesizeMemo (mkSqliteDatabase path [a])) =
      [ "📊 Business Intelligence Memo 📊"; ""; "Key Insights Discovered:"; "";
        "- " ++ a ]) /\
  (forall path a b,
      _synthesizeMemo (mkSqliteDatabase path [a; b]) =
      memoTitle ++ memoHeading ++ ("- " ++ a) ++ LF ++ ("- " ++ b) ++ LF ++
      "Summary:" ++ LF ++
      "Analysis has revealed 2 key business insights that suggest opportunities for strategic optimization and growth.") /\
  (forall path a b,
      singleLine a = true -> singleLine b = true ->
      lines (_synthesizeMemo (mkSqliteDatabase path [a; b])) =
      [ "📊 Business Intelligence Memo 📊"; ""; "Key Insights Discovered:"; "";
        "- " ++ a; "- " ++ b; "Summary:";
        "Analysis has revealed 2 key business insights that suggest opportunities for strategic optimization and growth." ]).
Proof.
  refine (conj _ (conj synthesizeMemo_empty (conj synthesizeMemo_one
            (conj lines_memo_one (conj synthesizeMemo_two lines_memo_two))))).
  intros d1 d2 H. unfold _synthesizeMemo. now rewrite H.
Qed.

(** The memo of the fourth end-to-end scenario, and of its first insight
    alone. *)
Lemma synthesizeMemo_of_ledger_witness :
  _synthesizeMemo (mkSqliteDatabase "a.db" ["Sales grew 20%"; "Churn dropped"]) =
  _synthesizeMemo (mkSqliteDatabase "b.db" ["Sales grew 20%"; "Churn dropped"]) /\
  lines (_synthesizeMemo (mkSqliteDatabase "a.db" ["Sales grew 20%"])) =
  [ "📊 Business Intelligence Memo 📊"; ""; "Key Insights Discovered:"; "";
    "- Sales grew 20%" ] /\
  lines (_synthesizeMemo (mkSqliteDatabase "a.db" ["Sales grew 20%"; "Churn dropped"])) =
  [ "📊 Business Intelligence Memo 📊"; ""; "Key Insights Discovered:"; "";
    "- Sales grew 20%"; "- Churn dropped"; "Summary:";
    "Analysis has revealed 2 key business insights that suggest opportunities for strategic optimization and growth." ].
Proof.
  destruct synthesizeMemo_of_ledger as (pure & _ & _ & one & _ & two).
  split; [| split].
  - apply pure. reflexivity.
  - apply (one "a.db" "Sales grew 20%"). reflexivity.
  - apply (two "a.db" "Sales grew 20%" "Churn dropped"); reflexivity.
Defined.

End MemoFacts.

(* ===================================================================== *)
(** ** The executor *)
(* ===================================================================== *)

Section ExecutorFacts.

Context {driver : Driver}.

Lemma release_head (conn : Connection) (n : nat) (open : list OpenConnection) :
  release conn ({| handle := conn; unfinalized := n |} :: open) = open.
Proof. cbn. now rewrite Nat.eqb_refl. Qed.

Lemma statementsOn_head (conn : Connection) (n : nat) (open : list OpenConnection) :
  statementsOn conn ({| handle := conn; unfinalized := n |} :: open) = n.
Proof. cbn. now rewrite Nat.eqb_refl. Qed.

Lemma withStatements_head (change : nat -> nat) (conn : Connection) (n : nat)
  (open : list OpenConnection) :
  withStatements change conn ({| handle := conn; unfinalized := n |} :: open) =
  {| handle := conn; unfinalized := change n |} :: open.
Proof. cbn. now rewrite Nat.eqb_refl. Qed.

(** What one call of the executor does, by the answers of the driver.  On
    a fault in [all] the statement is not finalized, the close is refused
    and the connection stays open. *)
Lemma executeQuery_run (query : string) (params : Params) (w : World) :
  let conn := nextConnection w in
  _executeQuery query params w =
  match sqlite_open (store w) with
  | Some fault =>
      (withExecution w (store w) [] conn [CallOpen] query, Rejected fault)
  | None =>
      match sqlite_prepare (store w) query with
      | Some fault =>
          (withExecution w (store w) [] (S conn)
             [CallOpen; CallPrepare conn query; CallClose conn] query,
           Rejected fault)
      | None =>
          match sqlite_all (store w) query params with
          | (file, inl fault) =>
              (withExecution w file [ {| handle := conn; unfinalized := 1 |} ]
                 (S conn)
                 [CallOpen; CallPrepare conn query; CallAll conn query params;
                  CallClose conn] query,
               Rejected closeBusy)
          | (file, inr rows) =>
              (withExecution w file [] (S conn)
                 [CallOpen; CallPrepare conn query; CallAll conn query params;
                  CallFinalize conn; CallClose conn] query,
               Resolved rows)
          end
      end
  end.
Proof.
  unfold _executeQuery, bind, tryFinally, tryCatch, entered, open, prepare,
    all, finalize, close, called, ret, throw, withExecution.
  cbn [fst snd db store openConnections nextConnection driverCalls executed
       notifications connection sql app].
  destruct (sqlite_open (store w)) as [fault|]; [reflexivity |].
  cbn [fst snd db store openConnections nextConnection driverCalls executed
       notifications connection sql].
  destruct (sqlite_prepare (store w) query) as [fault|];
    cbn [fst snd db store openConnections nextConnection driverCalls executed
         notifications connection sql].
  - rewrite statementsOn_head, release_head. cbn [Nat.ltb Nat.leb].
    now rewrite <- !app_assoc.
  - rewrite withStatements_head.
    destruct (sqlite_all (store w) query params) as [file [fault|rows]];
      cbn [fst snd db store openConnections nextConnection driverCalls executed
           notifications connection sql].
    + rewrite statementsOn_head. cbn [Nat.ltb Nat.leb].
      now rewrite <- !app_assoc.
    + rewrite withStatements_head, statementsOn_head, release_head.
      cbn [Nat.ltb Nat.leb pred]. now rewrite <- !app_assoc.
Qed.

(** The executor leaves the [db] object and the notifications as they
    were, and records the statement. *)
Lemma executeQuery_frame (query : string) (params : Params) (w : World) :
  let w' := fst (_executeQuery query params w) in
  db w' = db w /\ notifications w' = notifications w /\
  executed w' = (executed w ++ [query])%list.
Proof.
  rewrite executeQuery_run.
  destruct (sqlite_open (store w)); [cbn; auto |].
  destruct (sqlite_prepare (store w) query); [cbn; auto |].
  destruct (sqlite_all (store w) query params) as [file [fault|rows]];
    cbn; auto.
Qed.

(** The connections open after one call of the executor: the ones open
    before, and the connection of the call when [all] faulted. *)
Lemma executeQuery_connections (query : string) (params : Params) (w : World) :
  openConnections (fst (_executeQuery query params w)) =
  match sqlite_open (store w), sqlite_prepare (store w) query,
        sqlite_all (store w) query params with
  | None, None, (_, inl _) =>
      {| handle := nextConnection w; unfinalized := 1 |} :: openConnections w
  | _, _, _ => openConnections w
  end.
Proof.
  rewrite executeQuery_run.
  destruct (sqlite_open (store w)); [reflexivity |].
  destruct (sqlite_prepare (store w) query); [reflexivity |].
  destruct (sqlite_all (store w) query params) as [file [fault|rows]];
    reflexivity.
Qed.

End ExecutorFacts.

(* ===================================================================== *)
(** ** The tool handlers *)
(* ===================================================================== *)

Section HandlerFacts.

Context {driver : Driver} {host : HostText}.

Lemma read_query_refuses (query : string) (w : World) :
  startsWith (leading query) "SELECT" = false ->
  read_query query w =
  (w, Resolved (refusal "Only SELECT queries are allowed for read_query")).
Proof. unfold read_query, leading. intros ->. reflexivity. Qed.

Lemma read_query_runs (query : string) (w : World) :
  startsWith (leading query) "SELECT" = true ->
  read_query query w =
  match _executeQuery query [] w with
  | (w', Resolved rows) => (w', Resolved (success (Json.stringify rows)))
  | (w', Rejected fault) => (w', Rejected fault)
  end.
Proof. unfold read_query, leading. intros ->. reflexivity. Qed.

Lemma write_query_refuses (query : string) (w : World) :
  startsWith (leading query) "SELECT" = true ->
  write_query query w =
  (w, Resolved (refusal "SELECT queries are not allowed for write_query")).
Proof. unfold write_query, leading. intros ->. reflexivity. Qed.

Lemma write_query_runs (query : string) (w : World) :
  startsWith (leading query) "SELECT" = false ->
  write_query query w =
  match _executeQuery query [] w with
  | (w', Resolved rows) => (w', Resolved (success (Json.stringify rows)))
  | (w', Rejected fault) => (w', Rejected fault)
  end.
Proof. unfold write_query, leading. intros ->. reflexivity. Qed.

Lemma create_table_refuses (query : string) (w : World) :
  startsWith (leading query) "CREATE TABLE" = false ->
  create_table query w =
  (w, Resolved (refusal "Only CREATE TABLE statements are allowed")).
Proof. unfold create_table, leading. intros ->. reflexivity. Qed.

Lemma create_table_runs (query : string) (w : World) :
  startsWith (leading query) "CREATE TABLE" = true ->
  create_table query w =
  match _executeQuery query [] w with
  | (w1, Rejected fault) => (w1, Rejected fault)
  | (w1, Resolved _) =>
      match _executeQuery query [] w1 with
      | (w2, Resolved _) =>
          (w2, Resolved (success ("Table created successfully: " ++ query)))
      | (w2, Rejected fault) =>
          (w2, Resolved (refusal ("Error creating table: " ++ fault)))
      end
  end.
Proof.
  unfold create_table, leading. intros ->.
  unfold bind, tryCatch, ret. cbn [negb].
  destruct (_executeQuery query [] w) as [w1 [rows|fault]]; [| reflexivity].
  destruct (_executeQuery query [] w1) as [w2 [rows'|fault]]; reflexivity.
Qed.



Lemma executed_after (query : string) (params : Params) (w : World) :
  executed (fst (_executeQuery query params w)) = (executed w ++ [query])%list.
Proof. apply executeQuery_frame. Qed.

Lemma db_after (query : string) (params : Params) (w : World) :
  db (fst (_executeQuery query params w)) = db w.
Proof. apply executeQuery_frame. Qed.

Lemma not_own_extension {A} (l : list A) (a : A) (more : list A) :
  l <> (l ++ a :: more)%list.
Proof.
  intros H. apply (f_equal (@List.length A)) in H.
  rewrite length_app in H. simpl in H. lia.
Qed.

Lemma read_query_handedOver (query : string) (w : World) :
  startsWith (leading query) "SELECT" = true -> handedOver read_query query w.
Proof.
  intros Hk. exists []. rewrite (read_query_runs _ _ Hk).
  rewrite <- (executed_after query [] w).
  destruct (_executeQuery query [] w) as [w' [rows|fault]]; reflexivity.
Qed.

Lemma write_query_handedOver (query : string) (w : World) :
  startsWith (leading query) "SELECT" = false -> handedOver write_query query w.
Proof.
  intros Hk. exists []. rewrite (write_query_runs _ _ Hk).
  rewrite <- (executed_after query [] w).
  destruct (_executeQuery query [] w) as [w' [rows|fault]]; reflexivity.
Qed.

(** The statements [create_table] hands to the executor: one when the
    first call faults, two otherwise. *)
Lemma create_table_executed (query : string) (w : World) :
  startsWith (leading query) "CREATE TABLE" = true ->
  executed (fst (create_table query w)) =
  match snd (_executeQuery query [] w) with
  | Rejected _ => (executed w ++ [query])%list
  | Resolved _ => (executed w ++ [query; query])%list
  end.
Proof.
  intros Hk. rewrite (create_table_runs _ _ Hk).
  settle_executor executed_after; [| assumption].
  settle_executor executed_after;
    rewrite Hcall0, Hcall, <- app_assoc; reflexivity.
Qed.

Lemma create_table_handedOver (query : string) (w : World) :
  startsWith (leading query) "CREATE TABLE" = true ->
  handedOver create_table query w.
Proof.
  intros Hk. unfold handedOver. rewrite (create_table_executed _ _ Hk).
  destruct (snd (_executeQuery query [] w)); eauto.
Qed.

Lemma read_query_refused_iff (query : string) (w : World) :
  refusedBy read_query "Only SELECT queries are allowed for read_query" query w <->
  startsWith (leading query) "SELECT" = false.
Proof.
  split; [| apply read_query_refuses].
  intros Hrefused.
  destruct (startsWith (leading query) "SELECT") eqn:Hk; [| reflexivity].
  destruct (read_query_handedOver _ w Hk) as [more Hmore].
  unfold refusedBy in Hrefused. rewrite Hrefused in Hmore.
  destruct (not_own_extension _ _ _ Hmore).
Qed.

Lemma write_query_refused_iff (query : string) (w : World) :
  refusedBy write_query "SELECT queries are not allowed for write_query" query w <->
  startsWith (leading query) "SELECT" = true.
Proof.
  split; [| apply write_query_refuses].
  intros Hrefused.
  destruct (startsWith (leading query) "SELECT") eqn:Hk; [reflexivity |].
  destruct (write_query_handedOver _ w Hk) as [more Hmore].
  unfold refusedBy in Hrefused. rewrite Hrefused in Hmore.
  destruct (not_own_extension _ _ _ Hmore).
Qed.

Lemma create_table_refused_iff (query : string) (w : World) :
  refusedBy create_table "Only CREATE TABLE statements are allowed" query w <->
  startsWith (leading query) "CREATE TABLE" = false.
Proof.
  split; [| apply create_table_refuses].
  intros Hrefused.
  destruct (startsWith (leading query) "CREATE TABLE") eqn:Hk; [| reflexivity].
  destruct (create_table_handedOver _ w Hk) as [more Hmore].
  unfold refusedBy in Hrefused. rewrite Hrefused in Hmore.
  destruct (not_own_extension _ _ _ Hmore).
Qed.



End HandlerFacts.

(* ===================================================================== *)
(** ** Properties of the dispatch *)
(* ===================================================================== *)

Section Dispatch.

Context {driver : Driver} {host : HostText}.

(** C4. The guards are prefix tests on the trimmed, upper-cased statement,
    whatever the host's [trim] and [toUpperCase] do on it.  A statement
    whose leading text starts with SELECT is handed to the executor by
    [read_query] and refused by [write_query]; any other statement, empty
    or not, is refused by [read_query] and handed to the executor by
    [write_query].  [create_table] hands a statement to the executor
    exactly when its leading text starts with CREATE TABLE, and refuses it
    exactly when it does not.  Nothing else of the statement is looked at:
    two statements with the same leading text are refused or not by each
    of the three tools alike. *)
Theorem classification_is_a_prefix_test (query : string) (w : World) :
  (startsWith (leading query) "SELECT" = true ->
     handedOver read_query query w /\
     refusedBy write_query "SELECT queries are not allowed for write_query" query w) /\
  (startsWith (leading query) "SELECT" = false ->
     refusedBy read_query "Only SELECT queries are allowed for read_query" query w /\
     handedOver write_query query w) /\
  (startsWith (leading query) "CREATE TABLE" = true <->
     handedOver create_table query w) /\
  (startsWith (leading query) "CREATE TABLE" = false <->
     refusedBy create_table "Only CREATE TABLE statements are allowed" query w) /\
  (forall query',
     leading query' = leading query ->
     (refusedBy read_query "Only SELECT queries are allowed for read_query" query' w <->
      refusedBy read_query "Only SELECT queries are allowed for read_query" query w) /\
     (refusedBy write_query "SELECT queries are not allowed for write_query" query' w <->
      refusedBy write_query "SELECT queries are not allowed for write_query" query w) /\
     (refusedBy create_table "Only CREATE TABLE statements are allowed" query' w <->
      refusedBy create_table "Only CREATE TABLE statements are allowed" query w)).
Proof.
  split; [| split; [| split; [| split]]].
  - intros Hk. split.
    + now apply read_query_handedOver.
    + now apply write_query_refuses.
  - intros Hk. split.
    + now apply read_query_refuses.
    + now apply write_query_handedOver.
  - split; [apply create_table_handedOver |].
    intros [more Hmore].
    destruct (startsWith (leading query) "CREATE TABLE") eqn:Hk; [reflexivity |].
    rewrite (create_table_refuses _ _ Hk) in Hmore.
    destruct (not_own_extension _ _ _ Hmore).
  - symmetry. apply create_table_refused_iff.
  - intros query' Hsame.
    rewrite !read_query_refused_iff, !write_query_refused_iff,
      !create_table_refused_iff, Hsame.
    repeat split; auto.
Qed.

(** C5. [read_query] on a statement whose leading text does not start
    with SELECT, and [write_query] on one whose leading text does, answer
    with an [isError] envelope and leave the world, the store in it
    included, exactly as it was: no statement is executed. *)
Theorem refused_calls_execute_nothing (query : string) (w : World) :
  (startsWith (leading query) "SELECT" = false ->
     exists envelope,
       read_query query w = (w, Resolved envelope) /\ isError envelope = true) /\
  (startsWith (leading query) "SELECT" = true ->
     exists envelope,
       write_query query w = (w, Resolved envelope) /\ isError envelope = true).
Proof.
  split; intros Hk.
  - eexists. split; [now apply read_query_refuses | reflexivity].
  - eexists. split; [now apply write_query_refuses | reflexivity].
Qed.

(** C3, amended.  On a statement that [create_table] accepts, the
    executor is first called with that statement outside any handler of
    faults.  When that call faults, the fault leaves [create_table] and
    the executor has been called once.  When it succeeds, the executor is
    called a second time with the same statement, and that second outcome
    alone decides the envelope: success when it succeeds, an [isError]
    envelope with its message when it faults. *)
Theorem create_table_executor_calls (query : string) (w : World) :
  startsWith (leading query) "CREATE TABLE" = true ->
  match _executeQuery query [] w with
  | (w1, Rejected fault) =>
      create_table query w = (w1, Rejected fault) /\
      executed w1 = (executed w ++ [query])%list
  | (w1, Resolved _) =>
      executed (fst (create_table query w)) = (executed w ++ [query; query])%list /\
      fst (create_table query w) = fst (_executeQuery query [] w1) /\
      snd (create_table query w) =
      match snd (_executeQuery query [] w1) with
      | Resolved _ =>
          Resolved (success ("Table created successfully: " ++ query))
      | Rejected fault =>
          Resolved (refusal ("Error creating table: " ++ fault))
      end
  end.
Proof.
  intros Hk.
  pose proof (create_table_executed _ w Hk) as Hexecuted.
  pose proof (executed_after query [] w) as Hfirst.
  rewrite (create_table_runs _ _ Hk) in *.
  destruct (_executeQuery query [] w) as [w1 [rows|fault]]; cbn [fst snd] in *.
  - split; [exact Hexecuted |].
    destruct (_executeQuery query [] w1) as [w2 [rows'|fault]]; split; reflexivity.
  - split; [reflexivity | exact Hfirst].
Qed.

(** C8. The close of the connection is in the [finally] block, but the
    statement is finalized on the path of success only.  When the
    connection opens, the statement is prepared and [all] faults,
    [db.close()] is called with the statement not finalized: the close is
    refused, the call of the executor settles rejected with the fault of
    the close, and the connection it opened is still open when it
    returns. *)
Theorem fault_in_all_leaves_the_connection_open
  (query : string) (params : Params) (w : World) (file : Store) (fault : Fault) :
  sqlite_open (store w) = None ->
  sqlite_prepare (store w) query = None ->
  sqlite_all (store w) query params = (file, inl fault) ->
  let w' := fst (_executeQuery query params w) in
  let conn := nextConnection w in
  openConnections w' = {| handle := conn; unfinalized := 1 |} :: openConnections w /\
  snd (_executeQuery query params w) = Rejected closeBusy /\
  driverCalls w' =
    (driverCalls w ++
     [CallOpen; CallPrepare conn query; CallAll conn query params;
      CallClose conn])%list.
Proof.
  intros Hopen Hprepare Hall. cbv zeta.
  rewrite executeQuery_run, Hopen, Hprepare, Hall. repeat split.
Qed.

(** On the other paths the connections open after a call of the executor
    are the ones open before it: when the connection cannot be opened,
    when the statement is refused at [prepare], and on success. *)
Lemma executeQuery_closes_otherwise
  (query : string) (params : Params) (w : World) :
  (forall fault, sqlite_open (store w) = Some fault ->
     openConnections (fst (_executeQuery query params w)) = openConnections w) /\
  (forall fault, sqlite_prepare (store w) query = Some fault ->
     openConnections (fst (_executeQuery query params w)) = openConnections w) /\
  (forall rows, snd (_executeQuery query params w) = Resolved rows ->
     openConnections (fst (_executeQuery query params w)) = openConnections w).
Proof.
  rewrite executeQuery_connections, executeQuery_run.
  destruct (sqlite_open (store w)) as [f|];
    [| destruct (sqlite_prepare (store w) query) as [f|];
       [| destruct (sqlite_all (store w) query params) as [file [f|rows']]]];
    repeat split; intros; try reflexivity; discriminate.
Qed.


End Dispatch.

(* ===================================================================== *)
(** ** The insight ledger *)
(* ===================================================================== *)

Section Ledger.

Context {driver : Driver} {host : HostText}.

(** The insights a single call appends. *)
Lemma callTool_insights (c : ToolCall) (w : World) :
  insights (db (fst (callTool c w))) =
  (insights (db w) ++ appended [c])%list.
Proof.
  destruct c as [query|query|query| |table_name|insight];
    cbn [callTool appended]; rewrite ?app_nil_r.
  - unfold read_query. destruct (negb _); [reflexivity |].
    unfold bind, ret. settle_executor db_after; congruence.
  - unfold write_query. destruct (startsWith _ _); [reflexivity |].
    unfold bind, ret. settle_executor db_after; congruence.
  - unfold create_table. destruct (negb _); [reflexivity |].
    unfold bind, tryCatch, ret. repeat settle_executor db_after; congruence.
  - unfold list_tables, bind, tryCatch, ret.
    settle_executor db_after; congruence.
  - unfold describe_table, bind, tryCatch, ret.
    settle_executor db_after; congruence.
  - reflexivity.
Qed.

Lemma serve_insights (calls : list ToolCall) (w : World) :
  insights (db (serve calls w)) = (insights (db w) ++ appended calls)%list.
Proof.
  revert w. induction calls as [|c calls IH]; intros w; cbn [serve].
  - now rewrite app_nil_r.
  - rewrite IH, callTool_insights, <- app_assoc.
    destruct c; reflexivity.
Qed.

(** C7. Over any sequence of calls of the six tools the ledger only grows
    at its end: afterwards it is the ledger before followed by the
    insights of the [append_insight] calls of the sequence, in their
    order, so its length never decreases and the entries already there
    stay in place, unchanged.  One call of [append_insight] makes the
    ledger exactly one longer; a call of any other tool leaves it as it
    was. *)
Theorem ledger_is_append_only (calls : list ToolCall) (w : World) :
  insights (db (serve calls w)) = (insights (db w) ++ appended calls)%list /\
  List.length (insights (db w)) <= List.length (insights (db (serve calls w))) /\
  (forall insight,
     insights (db (fst (append_insight insight w))) =
       (insights (db w) ++ [insight])%list /\
     List.length (insights (db (fst (append_insight insight w)))) =
       S (List.length (insights (db w)))) /\
  (forall c,
     insights (db (fst (callTool c w))) =
     match c with
     | AppendInsight insight => (insights (db w) ++ [insight])%list
     | _ => insights (db w)
     end).
Proof.
  split; [apply serve_insights |].
  split; [rewrite serve_insights, length_app; lia |].
  split.
  - intros insight. cbn. rewrite length_app. cbn. split; [reflexivity | lia].
  - intros c. rewrite callTool_insights.
    destruct c; cbn [appended]; rewrite ?app_nil_r; reflexivity.
Qed.

(** C9. [append_insight] takes any text, the empty one included, without
    a test on it: the text is put at the end of the ledger, the call
    settles resolved, never rejected, and the envelope is the fixed
    acknowledgement with [isError] unset.  Nothing else of the world
    changes but the notification sent. *)
Theorem append_insight_takes_any_text (insight : string) (w : World) :
  append_insight insight w =
  ({| db := {| dbPath := dbPath (db w);
               insights := (insights (db w) ++ [insight])%list |};
      store := store w;
      openConnections := openConnections w;
      nextConnection := nextConnection w;
      driverCalls := driverCalls w;
      executed := executed w;
      notifications :=
        (notifications w ++
         [ {| method := "notifications/resources/updated";
              resource := "memo://insight" |} ])%list |},
   Resolved {| content := [ {| type := "text"; text := "Insight added to memo" |} ];
               isError := false |}) /\
  insights (db (fst (append_insight "" w))) = (insights (db w) ++ [""])%list /\
  snd (append_insight "" w) = Resolved (success "Insight added to memo").
Proof. repeat split. Qed.

(** C10. The notification [append_insight] sends names the resource
    [memo://insight], which is not the URI [memo://insights] the memo
    resource is registered and read under. *)
Theorem notification_names_another_resource (insight : string) (w : World) :
  notifications (fst (append_insight insight w)) =
    (notifications w ++
     [ {| method := "notifications/resources/updated";
          resource := "memo://insight" |} ])%list /\
  resourceUri memoResource = "memo://insights" /\
  "memo://insight" <> resourceUri memoResource /\
  (forall href, snd (readMemo href w) =
     Resolved [ {| uri := href; contentsText := _synthesizeMemo (db w) |} ]).
Proof.
  split; [reflexivity |]. split; [reflexivity |].
  split; [discriminate | reflexivity].
Qed.

End Ledger.

(* ===================================================================== *)
(** ** The scenarios, run on the small store *)
(* ===================================================================== *)

Module Scenarios.

Import MiniSqlite.

(** C1. On a fresh store, [create_table] with
    [CREATE TABLE t (id INTEGER, name TEXT)] hands the statement to the
    executor twice: the first run creates [t], the second is refused by
    the store because [t] is there, and the envelope has [isError] set.
    [list_tables] then shows [t] and [describe_table] its columns [id]
    and [name]. *)
Theorem create_table_on_fresh_store :
  snd (create_table createT freshWorld) =
    Resolved {| content :=
                  [textContent
                     "Error creating table: SQLITE_ERROR: table t already exists"];
                isError := true |} /\
  executed afterCreateT = [createT; createT] /\
  tables (store afterCreateT) =
    [ {| tableName := "t"; tableColumns := [("id", "INTEGER"); ("name", "TEXT")] |} ] /\
  snd (list_tables afterCreateT) =
    Resolved (success (Json.stringify [ [("name", SqlText "t")] ])) /\
  snd (describe_table "t" afterCreateT) =
    Resolved (success (Json.stringify
      [ [ ("cid", SqlInteger 0); ("name", SqlText "id"); ("type", SqlText "INTEGER");
          ("notnull", SqlInteger 0); ("dflt_value", SqlNull); ("pk", SqlInteger 0) ];
        [ ("cid", SqlInteger 1); ("name", SqlText "name"); ("type", SqlText "TEXT");
          ("notnull", SqlInteger 0); ("dflt_value", SqlNull); ("pk", SqlInteger 0) ] ])).
Proof. repeat (apply conj); vm_compute; reflexivity. Qed.

(** At the callbacks themselves, a statement that passes the guard and is
    refused by the store makes [read_query] and [write_query] settle
    rejected with the fault, as they do on a database file that cannot be
    opened, where [list_tables] returns its [isError] envelope. *)
Theorem read_write_fault_leaves_the_handler :
  startsWith (leading "SELECT * FROM missing") "SELECT" = true /\
  snd (read_query "SELECT * FROM missing" freshWorld) =
    Rejected "SQLITE_ERROR: no such table: missing" /\
  startsWith (leading createT) "SELECT" = false /\
  snd (write_query createT afterCreateT) =
    Rejected "SQLITE_ERROR: table t already exists" /\
  snd (read_query "SELECT * FROM t" lockedWorld) =
    Rejected "SQLITE_CANTOPEN: unable to open database file" /\
  snd (write_query createT lockedWorld) =
    Rejected "SQLITE_CANTOPEN: unable to open database file" /\
  snd (list_tables lockedWorld) =
    Resolved (refusal
      "Error listing tables: SQLITE_CANTOPEN: unable to open database file").
Proof. repeat (apply conj); vm_compute; reflexivity. Qed.

(** C3, as stated, fails: [create_table] accepts [createT] when the table
    is already there, the first call of the executor faults, and the
    executor has been called once, not twice. *)
Lemma create_table_not_always_twice :
  ~ (forall (w : World) (query : string),
       startsWith (leading query) "CREATE TABLE" = true ->
       executed (fst (create_table query w)) =
       (executed w ++ [query; query])%list).
Proof.
  intros H. specialize (H afterCreateT createT eq_refl).
  vm_compute in H. discriminate H.
Qed.

(** [createT] is accepted, on the store where [t] is there as well. *)
Lemma create_table_executor_calls_witness :
  startsWith (leading createT) "CREATE TABLE" = true /\
  match _executeQuery createT [] afterCreateT with
  | (w1, Rejected fault) =>
      create_table createT afterCreateT = (w1, Rejected fault) /\
      executed w1 = (executed afterCreateT ++ [createT])%list
  | (w1, Resolved _) =>
      executed (fst (create_table createT afterCreateT)) =
        (executed afterCreateT ++ [createT; createT])%list /\
      fst (create_table createT afterCreateT) = fst (_executeQuery createT [] w1) /\
      snd (create_table createT afterCreateT) =
      match snd (_executeQuery createT [] w1) with
      | Resolved _ =>
          Resolved (success ("Table created successfully: " ++ createT))
      | Rejected fault =>
          Resolved (refusal ("Error creating table: " ++ fault))
      end
  end.
Proof.
  split; [reflexivity |].
  exact (create_table_executor_calls createT afterCreateT eq_refl).
Defined.

(** The guards on a padded lower-case read, on a write and on [createT]. *)
Lemma classification_is_a_prefix_test_witness :
  handedOver read_query "  select * from t" freshWorld /\
  refusedBy write_query "SELECT queries are not allowed for write_query"
    "  select * from t" freshWorld /\
  refusedBy read_query "Only SELECT queries are allowed for read_query"
    "INSERT INTO t VALUES (2,'b')" freshWorld /\
  handedOver create_table createT freshWorld /\
  (refusedBy read_query "Only SELECT queries are allowed for read_query"
     "select 1" freshWorld <->
   refusedBy read_query "Only SELECT queries are allowed for read_query"
     " SELECT 1 " freshWorld).
Proof.
  destruct (classification_is_a_prefix_test "  select * from t" freshWorld)
    as (Hselect & _).
  destruct (classification_is_a_prefix_test "INSERT INTO t VALUES (2,'b')" freshWorld)
    as (_ & Hinsert & _).
  destruct (classification_is_a_prefix_test createT freshWorld)
    as (_ & _ & Hcreate & _).
  destruct (classification_is_a_prefix_test " SELECT 1 " freshWorld)
    as (_ & _ & _ & _ & Hsame).
  split; [exact (proj1 (Hselect eq_refl)) |].
  split; [exact (proj2 (Hselect eq_refl)) |].
  split; [exact (proj1 (Hinsert eq_refl)) |].
  split; [exact (proj1 Hcreate eq_refl) |].
  exact (proj1 (Hsame "select 1" eq_refl)).
Defined.

(** The third end-to-end scenario: a write sent to [read_query], and a read
    sent to [write_query]. *)
Lemma refused_calls_execute_nothing_witness :
  (exists envelope,
      read_query "INSERT INTO t VALUES (2,'b')" afterCreateT =
        (afterCreateT, Resolved envelope) /\ isError envelope = true) /\
  (exists envelope,
      write_query "SELECT * FROM t" afterCreateT =
        (afterCreateT, Resolved envelope) /\ isError envelope = true).
Proof.
  split.
  - apply (refused_calls_execute_nothing "INSERT INTO t VALUES (2,'b')" afterCreateT).
    reflexivity.
  - apply (refused_calls_execute_nothing "SELECT * FROM t" afterCreateT).
    reflexivity.
Defined.


(** C8 on [abs] of the least integer, which is prepared without fault and
    overflows when it is stepped. *)
Lemma fault_in_all_leaves_the_connection_open_witness :
  openConnections (fst (_executeQuery absOfLeast [] freshWorld)) =
    [ {| handle := 0; unfinalized := 1 |} ] /\
  snd (_executeQuery absOfLeast [] freshWorld) = Rejected closeBusy /\
  driverCalls (fst (_executeQuery absOfLeast [] freshWorld)) =
    [CallOpen; CallPrepare 0 absOfLeast; CallAll 0 absOfLeast []; CallClose 0].
Proof.
  exact (fault_in_all_leaves_the_connection_open absOfLeast [] freshWorld
           fresh "SQLITE_ERROR: integer overflow" eq_refl eq_refl eq_refl).
Defined.

(** The same through [read_query] and the handler of [tools/call]: the
    caller is told of the refused close, not of the overflow, and the
    connection stays open; a second call leaves a second one open. *)
Theorem read_query_leaves_connections_open :
  startsWith (leading absOfLeast) "SELECT" = true /\
  snd (toolsCall (ReadQuery absOfLeast) freshWorld) = Resolved (refusal closeBusy) /\
  openConnections (serve [ReadQuery absOfLeast] freshWorld) =
    [ {| handle := 0; unfinalized := 1 |} ] /\
  openConnections (serve [ReadQuery absOfLeast; ReadQuery absOfLeast] freshWorld) =
    [ {| handle := 1; unfinalized := 1 |}; {| handle := 0; unfinalized := 1 |} ].
Proof. repeat (apply conj); vm_compute; reflexivity. Qed.

End Scenarios.

(* ===================================================================== *)
(** ** More on the guards *)
(* ===================================================================== *)

Section AsciiGuards.

Context {driver : Driver}.

(** In this section [trim] and [toUpperCase] are the functions of module
    [Text], the host's on ASCII text, and the handlers run with them. *)
#[local] Existing Instance asciiText.
Local Abbreviation trim := Text.trim.
Local Abbreviation toUpperCase := Text.toUpperCase.

Lemma trimStart_blank (s : string) :
  allWhiteSpace s = true -> trimStart s = "".
Proof.
  induction s as [|c s IH]; cbn; [reflexivity |].
  intros H. apply andb_prop in H as [Hc Hs]. rewrite Hc. now apply IH.
Qed.

Lemma trimEnd_blank (s : string) :
  allWhiteSpace s = true -> trimEnd s = "".
Proof.
  induction s as [|c s IH]; cbn; [reflexivity |].
  intros H. apply andb_prop in H as [Hc Hs]. now rewrite (IH Hs), Hc.
Qed.

Lemma trimEnd_padding (s pad : string) :
  allWhiteSpace pad = true -> trimEnd (s ++ pad) = trimEnd s.
Proof.
  intros Hpad. induction s as [|c s IH]; cbn.
  - now apply trimEnd_blank.
  - now rewrite IH.
Qed.

Lemma trim_padding (pad s pad' : string) :
  allWhiteSpace pad = true -> allWhiteSpace pad' = true ->
  trim (pad ++ s ++ pad') = trim s.
Proof.
  intros Hpad Hpad'. unfold trim. rewrite (trimStart_padding _ _ Hpad).
  induction s as [|c s IH]; cbn [append trimStart].
  - now rewrite (trimStart_blank _ Hpad').
  - destruct (isWhiteSpace c); [exact IH |].
    exact (trimEnd_padding (String c s) pad' Hpad').
Qed.

Lemma toUpperCase_trimStart (s : string) :
  toUpperCase (trimStart s) = trimStart (toUpperCase s).
Proof.
  induction s as [|c s IH]; cbn; [reflexivity |].
  rewrite isWhiteSpace_upperChar. now destruct (isWhiteSpace c).
Qed.

Lemma toUpperCase_trimEnd (s : string) :
  toUpperCase (trimEnd s) = trimEnd (toUpperCase s).
Proof.
  induction s as [|c s IH]; cbn; [reflexivity |].
  rewrite <- IH, isWhiteSpace_upperChar.
  destruct (trimEnd s); cbn; [now destruct (isWhiteSpace c) | reflexivity].
Qed.

Lemma upperChar_idempotent (c : ascii) : upperChar (upperChar c) = upperChar c.
Proof. destruct c as [[] [] [] [] [] [] [] []]; reflexivity. Qed.

Lemma toUpperCase_idempotent (s : string) :
  toUpperCase (toUpperCase s) = toUpperCase s.
Proof.
  induction s as [|c s IH]; cbn; [reflexivity |].
  now rewrite upperChar_idempotent, IH.
Qed.

Lemma leading_toUpperCase (s : string) : leading s = trim (toUpperCase s).
Proof.
  rewrite leading_ascii. unfold Text.trim.
  now rewrite toUpperCase_trimEnd, toUpperCase_trimStart.
Qed.

(** X1. With the functions on ASCII text, the text the three guards test
    is the same for two statements that differ only by white space around
    them and by the case of their letters, so the guards give the same
    verdict on both. *)
Theorem guards_ignore_padding_and_case (pad s pad' s' : string) :
  allWhiteSpace pad = true -> allWhiteSpace pad' = true ->
  toUpperCase s = toUpperCase s' ->
  leading (pad ++ s ++ pad') = leading s' /\
  (forall keyword,
     startsWith (leading (pad ++ s ++ pad')) keyword =
     startsWith (leading s') keyword).
Proof.
  intros Hpad Hpad' Hcase.
  assert (H : leading (pad ++ s ++ pad') = leading s').
  { rewrite leading_ascii, (trim_padding _ _ _ Hpad Hpad'), <- leading_ascii.
    now rewrite (leading_toUpperCase s), (leading_toUpperCase s'), Hcase. }
  split; [exact H | intros keyword; now rewrite H].
Qed.

Lemma guards_ignore_padding_and_case_witness :
  leading ("  " ++ "select * from T" ++ " ") = leading "SELECT * FROM t".
Proof.
  apply (guards_ignore_padding_and_case "  " "select * from T" " " "SELECT * FROM t");
    reflexivity.
Defined.

(** X3. A statement that is empty or holds white space only is refused by
    [read_query] and by [create_table], and [write_query] hands it to the
    executor as it is. *)
Theorem blank_statement_is_a_write (query : string) (w : World) :
  allWhiteSpace query = true ->
  refusedBy read_query "Only SELECT queries are allowed for read_query" query w /\
  refusedBy create_table "Only CREATE TABLE statements are allowed" query w /\
  executed (fst (write_query query w)) = (executed w ++ [query])%list.
Proof.
  intros Hblank.
  assert (Hlead : leading query = "").
  { rewrite leading_ascii. unfold Text.trim.
    now rewrite (trimStart_blank _ Hblank). }
  split; [| split].
  - apply read_query_refuses. now rewrite Hlead.
  - apply create_table_refuses. now rewrite Hlead.
  - rewrite write_query_runs by now rewrite Hlead.
    rewrite <- (executed_after query [] w).
    destruct (_executeQuery query [] w) as [w' [rows|fault]]; reflexivity.
Qed.

End AsciiGuards.

Section Guards.

Context {driver : Driver} {host : HostText}.

Lemma create_table_is_no_select (s : string) :
  startsWith s "CREATE TABLE" = true -> startsWith s "SELECT" = false.
Proof.
  destruct s as [|c s]; [discriminate |]. cbn.
  destruct (Ascii.eqb_spec c "C"); [subst c; reflexivity | discriminate].
Qed.

(** X2. A statement that [create_table] accepts is refused by
    [read_query] and handed to the executor by [write_query]: the two
    keywords cannot both lead a statement. *)
Theorem create_table_statements_are_writes (query : string) (w : World) :
  startsWith (leading query) "CREATE TABLE" = true ->
  refusedBy read_query "Only SELECT queries are allowed for read_query" query w /\
  handedOver write_query query w.
Proof.
  intros Hk. apply create_table_is_no_select in Hk. split.
  - now apply read_query_refuses.
  - now apply write_query_handedOver.
Qed.

End Guards.

(* ===================================================================== *)
(** ** The memo of any ledger *)
(* ===================================================================== *)

Section MemoOfAnyLedger.

Lemma join_cons (sep p : string) (q : string) (rest : list string) :
  join sep (p :: q :: rest) = p ++ sep ++ join sep (q :: rest).
Proof. reflexivity. Qed.

Lemma join_app (sep : string) (xs ys : list string) :
  xs <> [] -> ys <> [] ->
  join sep (xs ++ ys) = join sep xs ++ sep ++ join sep ys.
Proof.
  intros Hxs Hys. induction xs as [|x xs IH]; [now destruct Hxs |].
  destruct xs as [|x' xs].
  - destruct ys as [|y ys]; [now destruct Hys | reflexivity].
  - change (join sep (x :: (x' :: xs) ++ ys)%list
            = join sep (x :: x' :: xs) ++ sep ++ join sep ys).
    cbn [app]. rewrite !join_cons, append_assoc, append_assoc.
    f_equal. f_equal. apply IH. discriminate.
Qed.

Lemma lines_join (xs : list string) :
  xs <> [] -> forallb singleLine xs = true -> lines (join LF xs) = xs.
Proof.
  intros Hxs. induction xs as [|x xs IH]; [now destruct Hxs |].
  intros H. cbn [forallb] in H. apply andb_prop in H as [Hx Hrest].
  destruct xs as [|x' xs].
  - now apply lines_singleLine.
  - rewrite join_cons, (lines_break _ _ Hx). f_equal.
    apply IH; [discriminate | exact Hrest].
Qed.

(** The decimal rendering of a number holds digits only. *)
Lemma singleLine_digits (d : Decimal.uint) :
  singleLine (NilEmpty.string_of_uint d) = true.
Proof. induction d; cbn; auto. Qed.

Lemma singleLine_ofNat (n : nat) : singleLine (ofNat n) = true.
Proof.
  unfold ofNat, NilZero.string_of_uint.
  destruct (Nat.to_uint n); try reflexivity; apply singleLine_digits.
Qed.

Lemma singleLine_append (a b : string) :
  singleLine a = true -> singleLine b = true -> singleLine (a ++ b) = true.
Proof.
  induction a as [|c a IH]; cbn; [auto |].
  intros H Hb. apply andb_prop in H as [Hc Ha].
  rewrite Hc. cbn. now apply IH.
Qed.

Lemma singleLine_summaryLines (n : nat) :
  forallb singleLine (summaryLines n) = true.
Proof.
  unfold summaryLines. destruct (1 <? n)%nat; [| reflexivity].
  cbn [forallb]. rewrite andb_true_r. cbn [singleLine isLineFeed andb negb].
  change (singleLine ("Analysis has revealed " ++ ofNat n ++
    " key business insights that suggest opportunities for strategic optimization and growth.") = true).
  apply singleLine_append; [reflexivity |].
  apply singleLine_append; [apply singleLine_ofNat | reflexivity].
Qed.

Lemma singleLine_memoLines (ledger : list string) :
  forallb singleLine ledger = true -> forallb singleLine (memoLines ledger) = true.
Proof.
  intros H. unfold memoLines. rewrite !forallb_app.
  rewrite singleLine_summaryLines, andb_true_r.
  apply andb_true_intro. split; [reflexivity |].
  induction ledger as [|a ledger IH]; [reflexivity |].
  cbn [forallb] in H. apply andb_prop in H as [Ha Hrest].
  cbn [map forallb]. rewrite (IH Hrest), andb_true_r. exact Ha.
Qed.

(** The memo of a ledger that is not empty is its lines joined by line
    feeds, whatever the insights hold. *)
Lemma synthesizeMemo_join (path : string) (a : string) (ledger : list string) :
  _synthesizeMemo (mkSqliteDatabase path (a :: ledger)) =
  join LF (memoLines (a :: ledger)).
Proof.
  unfold _synthesizeMemo, memoLines, summaryLines.
  cbn [insights List.length Nat.eqb].
  change (map (fun insight => "- " ++ insight) (a :: ledger))
    with (map bullet (a :: ledger)).
  destruct (1 <? S (List.length ledger))%nat.
  - rewrite (app_assoc _ (map bullet (a :: ledger))).
    rewrite join_app by (try destruct ledger; discriminate).
    rewrite join_app by discriminate.
    unfold memoTitle, memoHeading, memoSummary.
    cbn [join]. rewrite !append_assoc. reflexivity.
  - rewrite app_nil_r, join_app by discriminate.
    unfold memoTitle, memoHeading. cbn [join].
    rewrite !append_assoc. reflexivity.
Qed.

(** X4. For a ledger that is not empty and whose insights hold no line
    feed, the lines of the memo are the title, a blank line, the heading,
    a blank line and one line [- insight] per insight in ledger order,
    followed, when there are two insights or more, by the line [Summary:]
    and the line that states their number. *)
Theorem memo_lines_of_any_ledger (path : string) (ledger : list string) :
  ledger <> [] ->
  forallb singleLine ledger = true ->
  lines (_synthesizeMemo (mkSqliteDatabase path ledger)) =
  ([ "📊 Business Intelligence Memo 📊"; ""; "Key Insights Discovered:"; "" ]
   ++ map (fun insight => ("- " ++ insight)%string) ledger
   ++ (if (1 <? List.length ledger)%nat
       then [ "Summary:";
              ("Analysis has revealed " ++ ofNat (List.length ledger) ++
               " key business insights that suggest opportunities for strategic optimization and growth.")%string ]
       else []))%list.
Proof.
  intros Hne Hlines. destruct ledger as [|a ledger]; [now destruct Hne |].
  rewrite synthesizeMemo_join.
  apply lines_join; [discriminate | now apply singleLine_memoLines].
Qed.

Lemma memo_lines_of_any_ledger_witness :
  lines (_synthesizeMemo (mkSqliteDatabase "a.db" ["one"; "two"; "three"])) =
  [ "📊 Business Intelligence Memo 📊"; ""; "Key Insights Discovered:"; "";
    "- one"; "- two"; "- three"; "Summary:";
    "Analysis has revealed 3 key business insights that suggest opportunities for strategic optimization and growth." ].
Proof.
  apply (memo_lines_of_any_ledger "a.db" ["one"; "two"; "three"]);
    [discriminate | reflexivity].
Defined.

Lemma append_longer (a x : string) : a ++ x = a -> x = "".
Proof.
  induction a as [|c a IH]; cbn; [auto |].
  intros H. injection H as H. now apply IH.
Qed.

(** X5. Insights are put into the memo as they are, line feeds included,
    so that two different ledgers can give the same memo: a line feed
    followed by [- ] inside an insight reads as the start of the next
    insight. *)
Theorem memo_takes_line_feeds_as_they_are (path a b c : string) :
  [a ++ LF ++ "- " ++ b; c] <> [a; b ++ LF ++ "- " ++ c] /\
  _synthesizeMemo (mkSqliteDatabase path [a ++ LF ++ "- " ++ b; c]) =
  _synthesizeMemo (mkSqliteDatabase path [a; b ++ LF ++ "- " ++ c]).
Proof.
  split.
  - intros H. injection H as H _. apply append_longer in H. discriminate H.
  - rewrite !synthesizeMemo_two, !append_assoc. reflexivity.
Qed.

Lemma bullets_determine (l1 l2 : list string) (s1 s2 : list string) :
  (forall x rest, s1 = x :: rest -> startsWith x "- " = false) ->
  (forall x rest, s2 = x :: rest -> startsWith x "- " = false) ->
  (map bullet l1 ++ s1 = map bullet l2 ++ s2)%list -> l1 = l2.
Proof.
  intros H1 H2. revert l2.
  induction l1 as [|a l1 IH]; intros [|b l2] H; cbn [map app] in H.
  - reflexivity.
  - specialize (H1 _ _ H). discriminate H1.
  - symmetry in H. specialize (H2 _ _ H). discriminate H2.
  - injection H as Hab Hrest. subst b. f_equal. now apply IH.
Qed.

Lemma summaryLines_no_bullet (n : nat) (x : string) (rest : list string) :
  summaryLines n = x :: rest -> startsWith x "- " = false.
Proof.
  unfold summaryLines. destruct (1 <? n)%nat; [| discriminate].
  intros H. injection H as <- _. reflexivity.
Qed.

(** X6. On ledgers whose insights hold no line feed the memo tells the
    ledger: two such ledgers with the same memo are the same ledger. *)
Theorem memo_determines_single_line_ledger (path1 path2 : string)
  (l1 l2 : list string) :
  forallb singleLine l1 = true -> forallb singleLine l2 = true ->
  _synthesizeMemo (mkSqliteDatabase path1 l1) =
  _synthesizeMemo (mkSqliteDatabase path2 l2) ->
  l1 = l2.
Proof.
  intros S1 S2 H.
  destruct l1 as [|a l1], l2 as [|b l2].
  - reflexivity.
  - rewrite synthesizeMemo_join in H. cbn in H. discriminate H.
  - rewrite synthesizeMemo_join in H. cbn in H. discriminate H.
  - apply (f_equal lines) in H.
    rewrite !synthesizeMemo_join in H.
    rewrite !lines_join in H
      by (try discriminate; now apply singleLine_memoLines).
    unfold memoLines in H. apply app_inv_head in H.
    apply (bullets_determine _ _ _ _
             (summaryLines_no_bullet _) (summaryLines_no_bullet _) H).
Qed.

Lemma memo_determines_single_line_ledger_witness :
  forallb singleLine ["Sales grew 20%"; "Churn dropped"] = true /\
  _synthesizeMemo (mkSqliteDatabase "b.db" ["Sales grew 20%"; "Churn dropped"]) =
  _synthesizeMemo (mkSqliteDatabase "a.db" ["Sales grew 20%"; "Churn dropped"]) /\
  ["Sales grew 20%"; "Churn dropped"] = ["Sales grew 20%"; "Churn dropped"].
Proof.
  split; [reflexivity |]. split; [reflexivity |].
  exact (memo_determines_single_line_ledger "b.db" "a.db"
           ["Sales grew 20%"; "Churn dropped"] ["Sales grew 20%"; "Churn dropped"]
           eq_refl eq_refl eq_refl).
Defined.

End MemoOfAnyLedger.

(* ===================================================================== *)
(** ** The prompt *)
(* ===================================================================== *)

Section PromptFacts.

Import Prompt.

Context {host : HostText}.

Lemma append_nil_right (s : string) : s ++ "" = s.
Proof. induction s as [|c s IH]; cbn; [reflexivity | now rewrite IH]. Qed.

Lemma dropPrefix_app (pattern rest : string) :
  dropPrefix (pattern ++ rest) pattern = Some rest.
Proof.
  induction pattern as [|p pattern IH]; cbn; [reflexivity |].
  now rewrite Ascii.eqb_refl.
Qed.

Lemma dropPrefix_sound (s pattern rest : string) :
  dropPrefix s pattern = Some rest -> s = pattern ++ rest.
Proof.
  revert s. induction pattern as [|p pattern IH]; intros s; cbn.
  - now intros [= ->].
  - destruct s as [|c s]; [discriminate |].
    destruct (Ascii.eqb_spec c p); [subst c | discriminate].
    intros H. now rewrite (IH _ H).
Qed.

(** The split is at an occurrence of the pattern. *)
Lemma splitFirst_sound (s pattern before after : string) :
  splitFirst s pattern = Some (before, after) ->
  s = before ++ pattern ++ after.
Proof.
  revert before. induction s as [|c s IH]; intros before; cbn [splitFirst].
  - destruct (dropPrefix "" pattern) eqn:E; [| discriminate].
    intros [= <- <-]. exact (dropPrefix_sound _ _ _ E).
  - destruct (dropPrefix (String c s) pattern) eqn:E.
    + intros [= <- <-]. exact (dropPrefix_sound _ _ _ E).
    + destruct (splitFirst s pattern) as [[b a]|]; [| discriminate].
      intros [= <- <-]. cbn. f_equal. now apply IH.
Qed.

Lemma splitFirst_cons (c : ascii) (s pattern : string) :
  splitFirst (String c s) pattern =
  match dropPrefix (String c s) pattern with
  | Some after => Some ("", after)
  | None =>
      match splitFirst s pattern with
      | Some (before, after) => Some (String c before, after)
      | None => None
      end
  end.
Proof. reflexivity. Qed.

(** A character that is no opening brace does not start the placeholder. *)
Lemma dropPrefix_no_brace (c : ascii) (s : string) :
  isChar 123 c = false -> dropPrefix (String c s) "{topic}" = None.
Proof.
  intros Hc. cbn [dropPrefix]. unfold isChar in Hc.
  destruct (Ascii.eqb_spec c "{"); [subst c; discriminate Hc | reflexivity].
Qed.

(** A text without opening brace before the placeholder: the split is
    there. *)
Lemma splitFirst_braceless (before after : string) :
  braceless before = true ->
  splitFirst (before ++ "{topic}" ++ after) "{topic}" = Some (before, after).
Proof.
  induction before as [|c before IH]; intros H.
  - change (splitFirst ("{topic}" ++ after) "{topic}" = Some ("", after)).
    destruct after; reflexivity.
  - cbn [braceless] in H. apply andb_prop in H as [Hc Hrest].
    apply negb_true_iff in Hc.
    change (String c before ++ "{topic}" ++ after)
      with (String c (before ++ "{topic}" ++ after)).
    now rewrite splitFirst_cons, (dropPrefix_no_brace _ _ Hc), (IH Hrest).
Qed.

(** A text without brace holds no placeholder. *)
Lemma splitFirst_none (s : string) :
  braceless s = true -> splitFirst s "{topic}" = None.
Proof.
  induction s as [|c s IH]; intros H; [reflexivity |].
  cbn [braceless] in H. apply andb_prop in H as [Hc Hrest].
  apply negb_true_iff in Hc.
  now rewrite splitFirst_cons, (dropPrefix_no_brace _ _ Hc), (IH Hrest).
Qed.

Lemma getSubstitution_plain (matched before after r rest : string) :
  plain r = true ->
  getSubstitution matched before after (r ++ rest) =
  r ++ getSubstitution matched before after rest.
Proof.
  induction r as [|c r IH]; intros H; [reflexivity |].
  cbn [plain] in H. apply andb_prop in H as [Hc Hr].
  apply negb_true_iff in Hc.
  cbn [append getSubstitution]. rewrite Hc, (IH Hr). reflexivity.
Qed.

Lemma getSubstitution_all_plain (matched before after r : string) :
  plain r = true -> getSubstitution matched before after r = r.
Proof.
  intros H. rewrite <- (append_nil_right r) at 1.
  rewrite (getSubstitution_plain _ _ _ _ _ H). cbn.
  apply append_nil_right.
Qed.

Lemma replace_braceless (before after topic : string) :
  braceless before = true ->
  replace (before ++ "{topic}" ++ after) "{topic}" topic =
  before ++ getSubstitution "{topic}" before after topic ++ after.
Proof.
  intros H. unfold replace. now rewrite (splitFirst_braceless _ _ H).
Qed.

(** X7. The prompt fills the first placeholder of the template only: with
    no opening brace before the first [{topic}] and no dollar sign in the
    topic, the text is the template with the topic in the place of that
    placeholder, trimmed, and everything after it, further placeholders
    included, is kept as it is.  A template with no brace at all is given
    back trimmed, whatever the topic.  The description carries the topic as
    it is. *)
Theorem mcp_demo_fills_first_placeholder_only (before after topic : string) :
  braceless before = true ->
  (plain topic = true ->
   mcp_demo (before ++ "{topic}" ++ after) topic =
   {| promptDescription := "Demo template for " ++ topic;
      messages :=
        [ {| role := "user";
             messageContent :=
               {| type := "text"; text := trim (before ++ topic ++ after) |} |} ] |}) /\
  promptTexts (mcp_demo before topic) = [trim before].
Proof.
  intros Hbefore. split.
  - intros Htopic. unfold mcp_demo.
    now rewrite (replace_braceless _ _ _ Hbefore),
      (getSubstitution_all_plain _ _ _ _ Htopic).
  - unfold mcp_demo, promptTexts, replace. cbn [messages map messageContent text].
    now rewrite (splitFirst_none _ Hbefore).
Qed.

(** X8. A dollar sign in the topic is read as a replacement pattern: in
    the text of the prompt, [$&] in the topic becomes the placeholder
    [{topic}] itself, [$$] one dollar sign, a dollar sign with a grave
    accent the template before the placeholder, and a dollar sign with an
    apostrophe the template after it. *)
Theorem mcp_demo_reads_dollar_patterns (before after u v : string) :
  braceless before = true -> plain u = true -> plain v = true ->
  let template := before ++ "{topic}" ++ after in
  promptTexts (mcp_demo template (u ++ "$&" ++ v)) =
    [trim (before ++ (u ++ "{topic}" ++ v) ++ after)] /\
  promptTexts (mcp_demo template (u ++ "$$" ++ v)) =
    [trim (before ++ (u ++ "$" ++ v) ++ after)] /\
  promptTexts (mcp_demo template (u ++ "$`" ++ v)) =
    [trim (before ++ (u ++ before ++ v) ++ after)] /\
  promptTexts (mcp_demo template (u ++ "$'" ++ v)) =
    [trim (before ++ (u ++ after ++ v) ++ after)].
Proof.
  intros Hbefore Hu Hv. cbv zeta.
  unfold mcp_demo, promptTexts. cbn [messages map messageContent text].
  rewrite !(replace_braceless _ _ _ Hbefore).
  rewrite !(getSubstitution_plain _ _ _ _ _ Hu).
  repeat split; do 3 f_equal; cbn [append getSubstitution isChar nat_of_ascii];
    cbn; now rewrite (getSubstitution_all_plain _ _ _ _ Hv).
Qed.

End PromptFacts.

Section PromptScenarios.

Import Prompt.

(** The prompt on ASCII templates and topics. *)
#[local] Existing Instance asciiText.

Lemma mcp_demo_fills_first_placeholder_only_witness :
  promptTexts (mcp_demo " Topic: {topic}. Again: {topic} " "sales") =
  ["Topic: sales. Again: {topic}"].
Proof.
  destruct (mcp_demo_fills_first_placeholder_only
              " Topic: " ". Again: {topic} " "sales" eq_refl) as [H _].
  change (" Topic: {topic}. Again: {topic} ")
    with (" Topic: " ++ "{topic}" ++ ". Again: {topic} ").
  rewrite (H eq_refl). reflexivity.
Defined.

Lemma mcp_demo_reads_dollar_patterns_witness :
  promptTexts (mcp_demo "Topic: {topic}." "US$&") = ["Topic: US{topic}."] /\
  promptTexts (mcp_demo "Topic: {topic}." "a $$ b") = ["Topic: a $ b."].
Proof.
  destruct (mcp_demo_reads_dollar_patterns "Topic: " "." "US" ""
              eq_refl eq_refl eq_refl) as [H1 _].
  destruct (mcp_demo_reads_dollar_patterns "Topic: " "." "a " " b"
              eq_refl eq_refl eq_refl) as (_ & H2 & _).
  split; [exact H1 | exact H2].
Defined.

End PromptScenarios.

(* ===================================================================== *)
(** ** Runs of the server *)
(* ===================================================================== *)

Section Runs.

Context {driver : Driver} {host : HostText}.

Lemma executions_step (query : string) (params : Params) (w : World) :
  forall w', Executions (fst (_executeQuery query params w)) w' -> Executions w w'.
Proof. intros w'. apply executions_more. Qed.

(** A tool other than [append_insight] changes the world by calls of the
    executor only. *)
Lemma callTool_executions (c : ToolCall) (w : World) :
  match c with
  | AppendInsight _ => True
  | _ => Executions w (fst (callTool c w))
  end.
Proof.
  destruct c as [query|query|query| |table_name|insight]; cbn [callTool];
    [| | | | | exact I].
  - unfold read_query. destruct (negb _); [apply executions_none |].
    unfold bind, ret. settle_executor executions_step;
      eauto using executions_none.
  - unfold write_query. destruct (startsWith _ _); [apply executions_none |].
    unfold bind, ret. settle_executor executions_step;
      eauto using executions_none.
  - unfold create_table. destruct (negb _); [apply executions_none |].
    unfold bind, tryCatch, ret. repeat settle_executor executions_step;
      eauto using executions_none.
  - unfold list_tables, bind, tryCatch, ret.
    settle_executor executions_step; eauto using executions_none.
  - unfold describe_table, bind, tryCatch, ret.
    settle_executor executions_step; eauto using executions_none.
Qed.

Lemma Executions_preserves (P : World -> Prop) :
  (forall query params w, P w -> P (fst (_executeQuery query params w))) ->
  forall w w', Executions w w' -> P w -> P w'.
Proof. intros Hstep w w' H. induction H; auto. Qed.

(** What every call of the executor and every [append_insight] keeps, a
    run of the server keeps. *)
Lemma serve_preserves (P : World -> Prop) :
  (forall query params w, P w -> P (fst (_executeQuery query params w))) ->
  (forall insight w, P w -> P (fst (append_insight insight w))) ->
  forall calls w, P w -> P (serve calls w).
Proof.
  intros Hexec Happend calls.
  induction calls as [|c calls IH]; intros w Hw; cbn [serve]; [exact Hw |].
  apply IH. pose proof (callTool_executions c w) as Hc.
  destruct c; try exact (Executions_preserves P Hexec _ _ Hc Hw).
  now apply Happend.
Qed.

Lemma synthesizeMemo_insights (d1 d2 : SqliteDatabase) :
  insights d1 = insights d2 -> _synthesizeMemo d1 = _synthesizeMemo d2.
Proof. intros H. unfold _synthesizeMemo. now rewrite H. Qed.

(** X9. Reading the memo resource changes nothing, and after any run of
    tool calls it gives, under the URI it was asked for, the memo of the
    ledger before the run followed by the insights the run appended: with
    no [append_insight] in between, two reads give the same text. *)
Theorem readMemo_follows_the_ledger
  (href : string) (calls : list ToolCall) (w : World) :
  fst (readMemo href (serve calls w)) = serve calls w /\
  snd (readMemo href (serve calls w)) =
    Resolved
      [ {| uri := href;
           contentsText :=
             _synthesizeMemo
               (mkSqliteDatabase (dbPath (db w))
                  (insights (db w) ++ appended calls)%list) |} ] /\
  (appended calls = [] ->
   snd (readMemo href (serve calls w)) = snd (readMemo href w)).
Proof.
  assert (Hmemo : _synthesizeMemo (db (serve calls w)) =
                  _synthesizeMemo
                    (mkSqliteDatabase (dbPath (db w))
                       (insights (db w) ++ appended calls)%list)).
  { apply synthesizeMemo_insights. apply serve_insights. }
  split; [reflexivity |]. split.
  - unfold readMemo. cbn [snd]. now rewrite Hmemo.
  - intros Hnone. unfold readMemo. cbn [snd]. rewrite Hmemo, Hnone, app_nil_r.
    replace (_synthesizeMemo (mkSqliteDatabase (dbPath (db w)) (insights (db w))))
      with (_synthesizeMemo (db w)) by now apply synthesizeMemo_insights.
    reflexivity.
Qed.

Lemma notifications_after (query : string) (params : Params) (w : World) :
  notifications (fst (_executeQuery query params w)) = notifications w.
Proof. apply executeQuery_frame. Qed.

(** X10. Over any run of tool calls, one notification is sent for each
    [append_insight] call and none for any other call, and each is the same
    [notifications/resources/updated] on [memo://insight]. *)
Theorem one_notification_per_insight (calls : list ToolCall) (w : World) :
  notifications (serve calls w) =
  (notifications w ++ repeat memoUpdated (List.length (appended calls)))%list.
Proof.
  revert w. induction calls as [|c calls IH]; intros w; cbn [serve].
  - cbn. now rewrite app_nil_r.
  - rewrite IH. pose proof (callTool_executions c w) as Hc.
    destruct c; cbn [appended];
      try (f_equal;
           exact (Executions_preserves
                    (fun w' => notifications w' = notifications w)
                    (fun q p w' H => eq_trans (notifications_after q p w') H)
                    _ _ Hc eq_refl)).
    cbn. now rewrite <- app_assoc.
Qed.

Lemma count_app (p : DriverCall -> bool) (l l' : list DriverCall) :
  count p (l ++ l') = count p l + count p l'.
Proof. unfold count. now rewrite filter_app, length_app. Qed.

(** One call of the executor: one [CallOpen], and as many [CallClose] as
    connections were numbered. *)
Lemma executeQuery_counts (query : string) (params : Params) (w : World) :
  let w' := fst (_executeQuery query params w) in
  count isOpen (driverCalls w') = S (count isOpen (driverCalls w)) /\
  count isClose (driverCalls w') + nextConnection w =
    count isClose (driverCalls w) + nextConnection w' /\
  List.length (executed w') = S (List.length (executed w)).
Proof.
  cbv zeta. rewrite executeQuery_run.
  destruct (sqlite_open (store w)) as [fault|];
    [| destruct (sqlite_prepare (store w) query) as [fault|];
       [| destruct (sqlite_all (store w) query params) as [file [fault|rows]]]];
    cbn [fst withExecution driverCalls nextConnection executed];
    rewrite !count_app, length_app; cbn; lia.
Qed.

(** The connections a call of the executor leaves open each hold one
    statement that is not finalized. *)
Lemma executeQuery_left_open (query : string) (params : Params) (w : World) :
  exists left,
    openConnections (fst (_executeQuery query params w)) =
      (left ++ openConnections w)%list /\
    Forall (fun c => unfinalized c = 1) left.
Proof.
  rewrite executeQuery_connections.
  destruct (sqlite_open (store w)); [now exists [] |].
  destruct (sqlite_prepare (store w) query); [now exists [] |].
  destruct (sqlite_all (store w) query params) as [file [fault|rows]];
    [| now exists []].
  exists [ {| handle := nextConnection w; unfinalized := 1 |} ].
  split; [reflexivity | now constructor].
Qed.

(** X11. Over any run of tool calls, every statement handed to the
    executor has its own [open] call, and [close] is called once for every
    connection that was opened.  The connections open before the run stay
    as they were, and every connection the run leaves open holds one
    statement that is not finalized: it is one on which [all] faulted and
    the close was refused. *)
Theorem runs_open_and_close_per_statement (calls : list ToolCall) (w : World) :
  let w' := serve calls w in
  (exists left,
     openConnections w' = (left ++ openConnections w)%list /\
     Forall (fun c => unfinalized c = 1) left) /\
  count isOpen (driverCalls w') + List.length (executed w) =
    count isOpen (driverCalls w) + List.length (executed w') /\
  count isClose (driverCalls w') + nextConnection w =
    count isClose (driverCalls w) + nextConnection w'.
Proof.
  cbv zeta.
  apply (serve_preserves
           (fun w' =>
              (exists left,
                 openConnections w' = (left ++ openConnections w)%list /\
                 Forall (fun c => unfinalized c = 1) left) /\
              count isOpen (driverCalls w') + List.length (executed w) =
                count isOpen (driverCalls w) + List.length (executed w') /\
              count isClose (driverCalls w') + nextConnection w =
                count isClose (driverCalls w) + nextConnection w')).
  - intros query params w1 ((left & Hopen & Hleft) & Hcount & Hclose).
    destruct (executeQuery_counts query params w1) as (H1 & H2 & H3).
    destruct (executeQuery_left_open query params w1) as (left1 & H4 & Hleft1).
    cbv zeta in H1, H2, H3. rewrite H1, H3. split; [| split; lia].
    exists (left1 ++ left)%list. split.
    + now rewrite H4, Hopen, app_assoc.
    + apply Forall_app. now split.
  - intros insight w1 H. exact H.
  - split; [exists []; split; [reflexivity | constructor] | split; reflexivity].
Qed.

(** X12. [list_tables] and [describe_table] never settle rejected: each
    hands one statement to the executor, the fixed catalogue query or the
    table name put as it is between [PRAGMA table_info(] and [)], returns
    the rows as JSON when the executor succeeds and turns its fault into an
    [isError] envelope with the message otherwise. *)
Theorem catalogue_tools_never_reject (table_name : string) (w : World) :
  let list := "SELECT name FROM sqlite_master WHERE type='table'" in
  let describe := "PRAGMA table_info(" ++ table_name ++ ")" in
  (fst (list_tables w) = fst (_executeQuery list [] w) /\
   snd (list_tables w) =
     match snd (_executeQuery list [] w) with
     | Resolved rows => Resolved (success (Json.stringify rows))
     | Rejected fault => Resolved (refusal ("Error listing tables: " ++ fault))
     end /\
   executed (fst (list_tables w)) = (executed w ++ [list])%list) /\
  (fst (describe_table table_name w) = fst (_executeQuery describe [] w) /\
   snd (describe_table table_name w) =
     match snd (_executeQuery describe [] w) with
     | Resolved rows => Resolved (success (Json.stringify rows))
     | Rejected fault => Resolved (refusal ("Error describing table: " ++ fault))
     end /\
   executed (fst (describe_table table_name w)) = (executed w ++ [describe])%list).
Proof.
  cbv zeta. split.
  - unfold list_tables, bind, tryCatch, ret.
    settle_executor executed_after; repeat split; exact Hcall.
  - unfold describe_table, bind, tryCatch, ret.
    settle_executor executed_after; repeat split; exact Hcall.
Qed.

(** X13. [_initDatabase] opens a connection and closes it at once: no
    statement is handed to the store and no connection stays open; when
    the database file cannot be opened it settles rejected with the fault
    after the single [open] call. *)
Theorem initDatabase_opens_and_closes (w : World) :
  let w' := fst (_initDatabase w) in
  executed w' = executed w /\ store w' = store w /\ db w' = db w /\
  openConnections w' = openConnections w /\
  match sqlite_open (store w) with
  | Some fault =>
      snd (_initDatabase w) = Rejected fault /\
      driverCalls w' = (driverCalls w ++ [CallOpen])%list
  | None =>
      snd (_initDatabase w) = Resolved tt /\
      driverCalls w' =
        (driverCalls w ++ [CallOpen; CallClose (nextConnection w)])%list
  end.
Proof.
  cbv zeta. unfold _initDatabase, bind, open, close, called.
  cbn [store driverCalls].
  destruct (sqlite_open (store w)) as [fault|];
    cbn [fst snd executed store db openConnections driverCalls nextConnection].
  - repeat split.
  - rewrite statementsOn_head. cbn [Nat.ltb Nat.leb].
    cbn [fst snd executed store db openConnections driverCalls nextConnection].
    rewrite release_head, <- app_assoc. repeat split.
Qed.

End Runs.

(* ===================================================================== *)
(** ** The guards, on the small store *)
(* ===================================================================== *)

Module GuardScenarios.

Import MiniSqlite.

(** [createT] sent to the three query tools of a fresh server. *)
Lemma create_table_statements_are_writes_witness :
  startsWith (leading createT) "CREATE TABLE" = true /\
  refusedBy read_query "Only SELECT queries are allowed for read_query"
    createT freshWorld /\
  handedOver write_query createT freshWorld.
Proof.
  split; [reflexivity |].
  exact (create_table_statements_are_writes createT freshWorld eq_refl).
Defined.

(** The empty statement and a statement of blanks. *)
Lemma blank_statement_is_a_write_witness :
  executed (fst (write_query "" freshWorld)) = [""] /\
  refusedBy read_query "Only SELECT queries are allowed for read_query"
    "   " freshWorld.
Proof.
  split.
  - apply (blank_statement_is_a_write "" freshWorld eq_refl).
  - apply (blank_statement_is_a_write "   " freshWorld eq_refl).
Defined.

End GuardScenarios.
